(** * Grade notifications: connection registry, missed-notification store,
      broadcast and replay

    A shallow embedding of the in-memory delivery engine of
    [grade-notifications.ts]: the two module-level maps [connections] and
    [recentNotifications], the [metrics] object, the five functions that
    mutate them and the three HTTP handlers that call those functions.

    Conventions of the embedding.
    - A [FastifyReply] is used by the code through its identity (membership in
      a JS [Set]), [reply.raw.write] and [reply.raw.end].  A reply is a [Chan]
      (a natural number standing for the object identity); what was written on
      it and whether it was ended is recorded in the state ([wire], [ended]);
      [failing] lists the replies whose [raw.write] throws.
    - A JS [Set] iterates in insertion order and holds no duplicates: it is a
      list, oldest member first (module [JSSet]).
    - A JS [Map] keyed by strings is a [gmap string _].  The only iteration
      over a map, in [pruneOldNotifications], treats every entry on its own,
      so the iteration order does not matter.
    - JS numbers that hold counters and epoch milliseconds are integers ([Z]).
    - [Date.now()] and [Math.random()] are inputs of the handlers.
    - The constants of [./constants/constants] are parameters of the
      development.
    - [sseHeaders], [keepAlive] and the serialisation of frames belong to the
      transport: the periodic ping comments and the response headers are not
      on the [wire] of the model. *)

From Stdlib Require Import ZArith List Lia Ascii String.
From stdpp Require Import gmap strings list fin_maps pretty.

Open Scope Z_scope.

(** ** Types ([types/types.ts]) *)

Abbreviation StudentId := string.

Record Notification := mkNotification {
  id : string;
  studentId : StudentId;
  message : string;
  createdAt : Z
}.

Record PublishBody := mkPublishBody {
  body_studentId : option string;
  body_message : option string
}.

(** A reply object, by identity. *)
Abbreviation Chan := nat.

(** The [type] field of the event objects the handlers serialise. *)
Inductive EventType := missed | live.

Record Event := mkEvent {
  type : EventType;
  evt_id : string;
  evt_message : string;
  evt_createdAt : Z
}.

(** What [reply.raw.write] is called with: the comment line that opens the
    stream, or [data: <JSON of an event>]. *)
Inductive Frame :=
| connected (t : Z)
| data (evt : Event).

Global Instance EventType_eq_dec : EqDecision EventType.
Proof. solve_decision. Defined.
Global Instance Event_eq_dec : EqDecision Event.
Proof. solve_decision. Defined.
Global Instance Frame_eq_dec : EqDecision Frame.
Proof. solve_decision. Defined.
Global Instance Notification_eq_dec : EqDecision Notification.
Proof. solve_decision. Defined.

(** ** The [metrics] object *)

Record Metrics := mkMetrics {
  connectionsTotal : Z;
  connectionsActive : Z;
  notificationsSent : Z;
  notificationsStored : Z;
  notificationsEvicted : Z
}.

Definition metrics0 : Metrics := mkMetrics 0 0 0 0 0.

Definition set_connectionsTotal (v : Z) (m : Metrics) : Metrics :=
  mkMetrics v (connectionsActive m) (notificationsSent m)
            (notificationsStored m) (notificationsEvicted m).
Definition set_connectionsActive (v : Z) (m : Metrics) : Metrics :=
  mkMetrics (connectionsTotal m) v (notificationsSent m)
            (notificationsStored m) (notificationsEvicted m).
Definition set_notificationsSent (v : Z) (m : Metrics) : Metrics :=
  mkMetrics (connectionsTotal m) (connectionsActive m) v
            (notificationsStored m) (notificationsEvicted m).
Definition set_notificationsStored (v : Z) (m : Metrics) : Metrics :=
  mkMetrics (connectionsTotal m) (connectionsActive m) (notificationsSent m)
            v (notificationsEvicted m).
Definition set_notificationsEvicted (v : Z) (m : Metrics) : Metrics :=
  mkMetrics (connectionsTotal m) (connectionsActive m) (notificationsSent m)
            (notificationsStored m) v.

(** ** JS [Set] of replies: insertion-ordered, duplicate-free *)

Module JSSet.

Definition size (s : list Chan) : Z := Z.of_nat (length s).

(** [set.add(x)]: a member keeps its place, a new value goes last. *)
Definition add (x : Chan) (s : list Chan) : list Chan :=
  if bool_decide (x ∈ s) then s else s ++ [x].

(** [set.delete(x)]: the boolean tells whether [x] was a member. *)
Definition delete (x : Chan) (s : list Chan) : bool * list Chan :=
  (bool_decide (x ∈ s), filter (λ y, y ≠ x) s).

(** [set.values().next().value]: the member inserted first, if any. *)
Definition first (s : list Chan) : option Chan := head s.

End JSSet.

(** ** Module state *)

Record State := mkState {
  connections : gmap string (list Chan);
  recentNotifications : gmap string (list Notification);
  metrics : Metrics;
  failing : list Chan;
  wire : list (Chan * Frame);
  ended : list Chan
}.

Definition init_state : State :=
  mkState ∅ ∅ metrics0 [] [] [].

Definition set_connections (c : gmap string (list Chan)) (st : State) : State :=
  mkState c (recentNotifications st) (metrics st) (failing st) (wire st) (ended st).
Definition set_recentNotifications (r : gmap string (list Notification))
    (st : State) : State :=
  mkState (connections st) r (metrics st) (failing st) (wire st) (ended st).
Definition set_metrics (m : Metrics) (st : State) : State :=
  mkState (connections st) (recentNotifications st) m (failing st) (wire st) (ended st).
Definition set_wire (w : list (Chan * Frame)) (st : State) : State :=
  mkState (connections st) (recentNotifications st) (metrics st) (failing st) w (ended st).
Definition set_ended (e : list Chan) (st : State) : State :=
  mkState (connections st) (recentNotifications st) (metrics st) (failing st) (wire st) e.

(** [reply.raw.write(frame)]: [None] when the call throws. *)
Definition raw_write (reply : Chan) (f : Frame) (st : State) : option State :=
  if bool_decide (reply ∈ failing st) then None
  else Some (set_wire (wire st ++ [(reply, f)]) st).

(** [try { reply.raw.write(frame) } catch {}] *)
Definition try_write (reply : Chan) (f : Frame) (st : State) : State :=
  default st (raw_write reply f st).

(** [try { reply.raw.end() } catch {}] *)
Definition try_end (reply : Chan) (st : State) : State :=
  set_ended (ended st ++ [reply]) st.

(** The channels held for a recipient, oldest first ([[]] when the key is
    absent), and the recipient's stored history. *)
Definition channels (st : State) (s : StudentId) : list Chan :=
  default [] (connections st !! s).
Definition history (st : State) (s : StudentId) : list Notification :=
  default [] (recentNotifications st !! s).

(** ** The documented configuration *)

(** Modelled from the spec: [./constants/constants] is not among the
    sources.  The specification lists the maximum of channels per recipient
    as a configuration value with a documented default, and the README
    documents a limit of 3 devices per student. *)
Definition documented_MAX_CONNECTIONS_PER_STUDENT : Z := 3.

(** Modelled from the spec: the retention window, also of
    [./constants/constants]; the README documents 24 hours, here in
    milliseconds. *)
Definition documented_NOTIFICATION_TTL_MS : Z := 86400000.

Section Engine.

(** Constants of [./constants/constants]. *)
Variable MAX_CONNECTIONS_PER_STUDENT : Z.
Variable NOTIFICATION_TTL_MS : Z.

(** *** [pruneOldNotifications] *)

(** The predicate of [list.filter]. *)
Definition retained (now : Z) (n : Notification) : Prop :=
  now - createdAt n ≤ NOTIFICATION_TTL_MS.

Global Instance retained_dec now n : Decision (retained now n).
Proof. unfold retained. apply _. Defined.

(** One iteration of the [for ... of recentNotifications.entries()] loop,
    on the pair of the map and the metrics object it mutates. *)
Definition prune_entry (now : Z) (studentId : StudentId)
    (lst : list Notification)
    (acc : gmap string (list Notification) * Metrics)
    : gmap string (list Notification) * Metrics :=
  let filtered := filter (retained now) lst in
  let evicted := Z.of_nat (length lst) - Z.of_nat (length filtered) in
  let m :=
    if bool_decide (0 < evicted)
    then set_notificationsEvicted (notificationsEvicted acc.2 + evicted) acc.2
    else acc.2 in
  if bool_decide (length filtered = 0%nat)
  then (delete studentId acc.1, m)
  else (<[studentId := filtered]> acc.1, m).

Definition pruneOldNotifications (now : Z) (st : State) : State :=
  let r := map_fold (prune_entry now)
                    (recentNotifications st, metrics st)
                    (recentNotifications st) in
  set_metrics r.2 (set_recentNotifications r.1 st).

(** *** [addRecentNotification]; [now] is the [Date.now()] read by the
    pruning pass it ends with. *)
Definition addRecentNotification (n : Notification) (now : Z) (st : State)
    : State :=
  let lst := default [] (recentNotifications st !! studentId n) in
  let lst := lst ++ [n] in
  let st := set_recentNotifications
              (<[studentId n := lst]> (recentNotifications st)) st in
  let st := set_metrics
              (set_notificationsStored
                 (notificationsStored (metrics st) + 1) (metrics st)) st in
  pruneOldNotifications now st.

(** *** [broadcastToStudent] *)

(** One iteration of [for (const reply of set)]. *)
Definition broadcast_step (payload : Event) (acc : State * Z) (reply : Chan)
    : State * Z :=
  match raw_write reply (data payload) acc.1 with
  | Some st' => (st', acc.2 + 1)
  | None => acc
  end.

Definition broadcastToStudent (studentId : StudentId) (payload : Event)
    (st : State) : State * Z :=
  match connections st !! studentId with
  | None => (st, 0)
  | Some set =>
    if bool_decide (JSSet.size set = 0) then (st, 0)
    else
      let r := foldl (broadcast_step payload) (st, 0) set in
      (set_metrics
         (set_notificationsSent
            (notificationsSent (metrics r.1) + r.2) (metrics r.1)) r.1,
       r.2)
  end.

(** *** [registerConnection] *)

Definition registerConnection (studentId : StudentId) (reply : Chan)
    (st : State) : State :=
  let set := default [] (connections st !! studentId) in
  let r :=
    if bool_decide (MAX_CONNECTIONS_PER_STUDENT ≤ JSSet.size set) then
      match JSSet.first set with
      | Some oldest =>
        let st := try_end oldest st in
        ((JSSet.delete oldest set).2,
         set_metrics
           (set_connectionsActive
              (Z.max 0 (connectionsActive (metrics st) - 1)) (metrics st)) st)
      | None => (set, st)
      end
    else (set, st) in
  let set := JSSet.add reply r.1 in
  let st := set_connections (<[studentId := set]> (connections r.2)) r.2 in
  let st := set_metrics
              (set_connectionsTotal
                 (connectionsTotal (metrics st) + 1) (metrics st)) st in
  set_metrics
    (set_connectionsActive
       (connectionsActive (metrics st) + 1) (metrics st)) st.

(** *** [unregisterConnection] *)

Definition unregisterConnection (studentId : StudentId) (reply : Chan)
    (st : State) : State :=
  match connections st !! studentId with
  | None => st
  | Some set =>
    let d := JSSet.delete reply set in
    let st := set_connections (<[studentId := d.2]> (connections st)) st in
    let st :=
      if d.1
      then set_metrics
             (set_connectionsActive
                (Z.max 0 (connectionsActive (metrics st) - 1)) (metrics st)) st
      else st in
    if bool_decide (JSSet.size d.2 = 0)
    then set_connections (delete studentId (connections st)) st
    else st
  end.

(** *** The HTTP handlers of [createServer] *)

(** [!v] on an optional string: [undefined] and the empty string are falsy. *)
Definition truthy (v : option string) : option string :=
  match v with
  | Some s => if bool_decide (s = "") then None else Some s
  | None => None
  end.

(** What a handler answers. *)
Inductive Response :=
| reply400 (error : string)
| reply202 (new_id : string)
| reply202_batch (count : Z) (ids : list (string * StudentId))
| stream_open
| threw.

(** The readings of [Date.now()] and the token of
    [Math.random().toString(36).slice(2)] used by one publish, in program
    order: the id, [createdAt], the pruning pass of the append. *)
Record PublishClock := mkPublishClock {
  t_id : Z;
  rnd : string;
  t_created : Z;
  t_prune : Z
}.

(** The template literal of the [id] field. *)
Definition mk_id (t : Z) (token : string) : string :=
  pretty t +:+ "-" +:+ token.

Definition mk_notification (s : StudentId) (msg : string) (clk : PublishClock)
    : Notification :=
  mkNotification (mk_id (t_id clk) (rnd clk)) s msg (t_created clk).

Definition live_event (n : Notification) : Event :=
  mkEvent live (id n) (message n) (createdAt n).
Definition missed_event (n : Notification) : Event :=
  mkEvent missed (id n) (message n) (createdAt n).

(** [POST /publish]; [None] is a request without a body. *)
Definition publish (body : option PublishBody) (clk : PublishClock)
    (st : State) : State * Response :=
  let body := default (mkPublishBody None None) body in
  match truthy (body_studentId body), truthy (body_message body) with
  | Some s, Some msg =>
    let n := mk_notification s msg clk in
    let st := addRecentNotification n (t_prune clk) st in
    let st := (broadcastToStudent s (live_event n) st).1 in
    (st, reply202 (id n))
  | _, _ => (st, reply400 "studentId and message required")
  end.

(** One iteration of the loop of [POST /publish/batch]. *)
Definition publish_batch_step
    (acc : State * list (string * StudentId))
    (p : PublishBody * PublishClock) : State * list (string * StudentId) :=
  match truthy (body_studentId p.1), truthy (body_message p.1) with
  | Some s, Some msg =>
    let n := mk_notification s msg p.2 in
    let st := addRecentNotification n (t_prune p.2) acc.1 in
    let st := (broadcastToStudent s (live_event n) st).1 in
    (st, acc.2 ++ [(id n, s)])
  | _, _ => acc
  end.

(** [POST /publish/batch]; [None] is a body without a [notifications]
    array.  Every entry comes with the clock readings its iteration takes. *)
Definition publish_batch
    (notifications : option (list (PublishBody * PublishClock)))
    (st : State) : State * Response :=
  match notifications with
  | None | Some [] => (st, reply400 "notifications array required")
  | Some ps =>
    let r := foldl publish_batch_step (st, []) ps in
    (r.1, reply202_batch (Z.of_nat (length r.2)) r.2)
  end.

(** The two readings of [Date.now()] of one [GET /sse]: the opening comment
    and the pruning pass before the replay. *)
Record SseClock := mkSseClock {
  t_connected : Z;
  t_replay : Z
}.

(** The replay loop over [missed]. *)
Definition replay (reply : Chan) (missed_list : list Notification)
    (st : State) : State :=
  if bool_decide (0 < length missed_list)%nat
  then foldl (λ st n, try_write reply (data (missed_event n)) st)
             st missed_list
  else st.

(** [GET /sse]; the write of the opening comment is not guarded, so the
    handler throws when it does. *)
Definition sse (query_studentId : option string) (reply : Chan)
    (clk : SseClock) (st : State) : State * Response :=
  match truthy query_studentId with
  | None => (st, reply400 "studentId is required")
  | Some s =>
    let st := registerConnection s reply st in
    match raw_write reply (connected (t_connected clk)) st with
    | None => (st, threw)
    | Some st =>
      let st := pruneOldNotifications (t_replay clk) st in
      let missed_list := default [] (recentNotifications st !! s) in
      (replay reply missed_list st, stream_open)
    end
  end.

(** The [onClose] closure of a stream, run on [close] and on [end]. *)
Definition onClose (s : StudentId) (reply : Chan) (st : State) : State :=
  unregisterConnection s reply st.

(** *** Operations on the module state *)

Inductive Op :=
| op_register (s : StudentId) (reply : Chan)
| op_unregister (s : StudentId) (reply : Chan)
| op_broadcast (s : StudentId) (payload : Event)
| op_append (n : Notification) (now : Z)
| op_prune (now : Z)
| op_publish (body : option PublishBody) (clk : PublishClock)
| op_publish_batch (ps : option (list (PublishBody * PublishClock)))
| op_sse (q : option string) (reply : Chan) (clk : SseClock).

Definition run_op (o : Op) (st : State) : State :=
  match o with
  | op_register s reply => registerConnection s reply st
  | op_unregister s reply => unregisterConnection s reply st
  | op_broadcast s payload => (broadcastToStudent s payload st).1
  | op_append n now => addRecentNotification n now st
  | op_prune now => pruneOldNotifications now st
  | op_publish body clk => (publish body clk st).1
  | op_publish_batch ps => (publish_batch ps st).1
  | op_sse q reply clk => (sse q reply clk st).1
  end.

Definition run_ops (os : list Op) (st : State) : State :=
  foldl (λ st o, run_op o st) st os.

(** *** Sizes *)

(** The number of values held by a map of lists: the channels of all
    recipients, or the notifications of all histories. *)
Definition total_size {A} (m : gmap string (list A)) : Z :=
  map_fold (λ _ l acc, Z.of_nat (length l) + acc) 0 m.

(** What one pass of the pruning loop leaves under a key. *)
Definition pruned_entry (now : Z) (lst : list Notification)
    : option (list Notification) :=
  let filtered := filter (retained now) lst in
  if bool_decide (length filtered = 0%nat) then None else Some filtered.

(** *** The registry seen per recipient *)

(** The reply [registerConnection] ends and drops from a set: the oldest
    member of a set that has reached the limit. *)
Definition evicted_from (set : list Chan) : option Chan :=
  if bool_decide (MAX_CONNECTIONS_PER_STUDENT ≤ JSSet.size set)
  then JSSet.first set else None.

(** The set it then adds the new reply to. *)
Definition after_eviction (set : list Chan) : list Chan :=
  match evicted_from set with
  | Some oldest => (JSSet.delete oldest set).2
  | None => set
  end.

(** Every set holds each reply once and at most the limit of replies. *)
Definition registry_bounded (st : State) : Prop :=
  ∀ s, NoDup (channels st s) ∧
       JSSet.size (channels st s) ≤ MAX_CONNECTIONS_PER_STUDENT.

(** [connectionsActive] counts the replies held. *)
Definition active_consistent (st : State) : Prop :=
  (∀ s, NoDup (channels st s)) ∧
  connectionsActive (metrics st) = total_size (connections st).

(** A reply is registered once: the handler of [GET /sse] registers the
    reply object of its own request. *)
Definition admissible (o : Op) (st : State) : Prop :=
  match o with
  | op_register s reply => reply ∉ channels st s
  | op_sse q reply _ =>
    match truthy q with
    | Some s => reply ∉ channels st s
    | None => True
    end
  | _ => True
  end.

Inductive reachable : State → Prop :=
| reachable_init : reachable init_state
| reachable_step o st :
    reachable st → admissible o st → reachable (run_op o st).

(** Successive registrations for one recipient. *)
Definition register_all (s : StudentId) (replies : list Chan) (st : State)
    : State :=
  foldl (λ st reply, registerConnection s reply st) st replies.

(** The call on the registry an operation makes, if any. *)
Definition registry_part (o : Op) (st : State) : State :=
  match o with
  | op_register s reply => registerConnection s reply st
  | op_unregister s reply => unregisterConnection s reply st
  | op_sse q reply _ =>
    match truthy q with
    | Some s => registerConnection s reply st
    | None => st
    end
  | _ => st
  end.

(** Two states with the same registry, the same two connection counters and
    the same transport failures. *)
Definition same_registry (st st' : State) : Prop :=
  connections st' = connections st ∧
  connectionsTotal (metrics st') = connectionsTotal (metrics st) ∧
  connectionsActive (metrics st') = connectionsActive (metrics st) ∧
  failing st' = failing st ∧ ended st' = ended st.

(** A field of a request that is absent or the empty string. *)
Definition missing (v : option string) : Prop := v = None ∨ v = Some "".

(** *** What a broadcast writes *)

(** The members of a set whose [raw.write] does not throw, in iteration
    order. *)
Definition writable (st : State) (set : list Chan) : list Chan :=
  filter (λ reply, reply ∉ failing st) set.

(** The frames a broadcast puts on the wire. *)
Definition broadcast_frames (payload : Event) (set : list Chan)
    : list (Chan * Frame) :=
  (λ reply, (reply, data payload)) <$> set.

(** *** Counters *)

(** The four counters that only count up. *)
Definition counters_le (m m' : Metrics) : Prop :=
  connectionsTotal m ≤ connectionsTotal m' ∧
  notificationsSent m ≤ notificationsSent m' ∧
  notificationsStored m ≤ notificationsStored m' ∧
  notificationsEvicted m ≤ notificationsEvicted m'.

(** The frames a replay puts on the wire. *)
Definition replay_frames (reply : Chan) (missed_list : list Notification)
    : list (Chan * Frame) :=
  (λ n, (reply, data (missed_event n))) <$> missed_list.

(** *** The handlers as sequences of calls

    Neither handler awaits: each runs to completion once started.  The
    calls a handler makes are listed here one by one, so that the calls of
    two handlers can also be put in any order that keeps the order within
    each handler. *)

Inductive Step :=
| step_append (n : Notification) (now : Z)
| step_broadcast (s : StudentId) (payload : Event)
| step_register (s : StudentId) (reply : Chan)
| step_connected (reply : Chan) (t : Z)
| step_prune (now : Z)
| step_replay (s : StudentId) (reply : Chan).

(** [None] when the call throws. *)
Definition exec (x : Step) (st : State) : option State :=
  match x with
  | step_append n now => Some (addRecentNotification n now st)
  | step_broadcast s payload => Some (broadcastToStudent s payload st).1
  | step_register s reply => Some (registerConnection s reply st)
  | step_connected reply t => raw_write reply (connected t) st
  | step_prune now => Some (pruneOldNotifications now st)
  | step_replay s reply =>
    Some (replay reply (default [] (recentNotifications st !! s)) st)
  end.

Fixpoint run_steps (xs : list Step) (st : State) : option State :=
  match xs with
  | [] => Some st
  | x :: xs' => exec x st ≫= run_steps xs'
  end.

(** The calls of an accepted [POST /publish]. *)
Definition publish_steps (s : StudentId) (msg : string) (clk : PublishClock)
    : list Step :=
  let n := mk_notification s msg clk in
  [step_append n (t_prune clk); step_broadcast s (live_event n)].

(** The calls of an accepted [GET /sse]. *)
Definition sse_steps (s : StudentId) (reply : Chan) (clk : SseClock)
    : list Step :=
  [step_register s reply; step_connected reply (t_connected clk);
   step_prune (t_replay clk); step_replay s reply].

(** All the merges of two sequences. *)
Fixpoint interleavings {A} (xs ys : list A) : list (list A) :=
  match xs with
  | [] => [ys]
  | x :: xs' =>
    (fix from_right (ys : list A) : list (list A) :=
       match ys with
       | [] => [xs]
       | y :: ys' =>
         (cons x <$> interleavings xs' ys) ++ (cons y <$> from_right ys')
       end) ys
  end.

(** [zs] keeps the order of [xs] and the order of [ys] and mixes them in
    any way. *)
Inductive is_merge {A} : list A → list A → list A → Prop :=
| merge_nil_l ys : is_merge [] ys ys
| merge_nil_r xs : is_merge xs [] xs
| merge_left x xs ys zs : is_merge xs ys zs → is_merge (x :: xs) ys (x :: zs)
| merge_right y xs ys zs : is_merge xs ys zs → is_merge xs (y :: ys) (y :: zs).

(** A frame on [reply] that carries the notification, as [live] or as
    [missed], and the number of them on a wire. *)
Definition delivers (reply : Chan) (n : Notification) (p : Chan * Frame)
    : Prop :=
  p = (reply, data (live_event n)) ∨ p = (reply, data (missed_event n)).

Global Instance delivers_dec reply n p : Decision (delivers reply n p).
Proof. unfold delivers. apply _. Defined.

Definition received (reply : Chan) (n : Notification)
    (w : list (Chan * Frame)) : nat :=
  length (filter (delivers reply n) w).

(** What a schedule has done so far: registered the reply, stored the
    notification, delivered it.  A broadcast delivers to a registered reply
    and a replay delivers a stored notification. *)
Definition monitor_step (x : Step) (f : bool * bool * bool)
    : bool * bool * bool :=
  let '(registered, stored, delivered) := f in
  match x with
  | step_append _ _ => (registered, true, delivered)
  | step_broadcast _ _ => (registered, stored, delivered || registered)
  | step_register _ _ => (true, stored, delivered)
  | step_replay _ _ => (registered, stored, delivered || stored)
  | _ => f
  end.

Definition monitor (xs : list Step) (f : bool * bool * bool)
    : bool * bool * bool :=
  foldl (λ f x, monitor_step x f) f xs.

(** The calls of a publish of [n] and of a subscribe of [reply], for the
    recipient [s], with the clock readings [tp], [tc] and [tr] of the
    append, the opening comment and the pruning pass before the replay. *)
Definition scheduled (s : StudentId) (n : Notification) (reply : Chan)
    (tp tc tr : Z) (x : Step) : Prop :=
  x = step_append n tp ∨ x = step_broadcast s (live_event n) ∨
  x = step_register s reply ∨ x = step_connected reply tc ∨
  x = step_prune tr ∨ x = step_replay s reply.

(** What the flags of the monitor mean in a state, [k] being the number of
    deliveries before the schedule started. *)
Definition monitored (s : StudentId) (n : Notification) (reply : Chan)
    (k : nat) (f : bool * bool * bool) (st : State) : Prop :=
  (reply ∉ failing st) ∧
  ((f.1).1 = true → reply ∈ channels st s) ∧
  ((f.1).2 = true → n ∈ history st s) ∧
  (k + (if f.2 then 1 else 0) ≤ received reply n (wire st))%nat.

(** At-least-once delivery as the specification words it: whatever the
    order of the calls of one publish and one subscribe of the same
    recipient, on a reply whose writes succeed, the reply gets one more
    frame that carries the notification. *)
Definition at_least_once : Prop :=
  ∀ st s msg pclk reply sclk sched,
    reply ∉ failing st →
    is_merge (publish_steps s msg pclk) (sse_steps s reply sclk) sched →
    ∃ st', run_steps sched st = Some st' ∧
           (received reply (mk_notification s msg pclk) (wire st)
            < received reply (mk_notification s msg pclk) (wire st'))%nat.

(** The operations that carry traffic. *)
Definition is_traffic (o : Op) : Prop :=
  match o with
  | op_publish _ _ | op_publish_batch _ | op_sse _ _ _ => True
  | _ => False
  end.

(** Pruning as the specification words it: no publish, batch publish or
    subscribe removes a stored notification or raises
    [notificationsEvicted]. *)
Definition pruning_only_time_driven : Prop :=
  ∀ o st, is_traffic o →
    notificationsEvicted (metrics (run_op o st))
    = notificationsEvicted (metrics st) ∧
    ∀ s n, n ∈ history st s → n ∈ history (run_op o st) s.

(** The counters as the specification words them: no operation lowers any
    of the five. *)
Definition all_counters_monotone : Prop :=
  ∀ o st,
    counters_le (metrics st) (metrics (run_op o st)) ∧
    connectionsActive (metrics st)
    ≤ connectionsActive (metrics (run_op o st)).


(** *** Requests used in the scenarios *)

Definition body_s1 : PublishBody :=
  mkPublishBody (Some "s1") (Some "New grade posted").
Definition body_s2 : PublishBody :=
  mkPublishBody (Some "s2") (Some "Grade A on Math").

(** A publish, or a subscribe, whose clock readings all give [t]. *)
Definition publish_at (t : Z) (token : string) : PublishClock :=
  mkPublishClock t token t t.
Definition sse_at (t : Z) : SseClock := mkSseClock t t.

(** *** The rest of the server *)

(** [GET /metrics]: the counters and the number of keys of [connections]. *)
Record MetricsReply := mkMetricsReply {
  reply_metrics : Metrics;
  studentsWithConnections : Z
}.

Definition get_metrics (st : State) : MetricsReply :=
  mkMetricsReply (metrics st) (Z.of_nat (size (connections st))).




(** The notification an entry of a batch is turned into, if it passes the
    check of the loop. *)
Definition accepted_entry (p : PublishBody * PublishClock)
    : option Notification :=
  match truthy (body_studentId p.1), truthy (body_message p.1) with
  | Some s, Some msg => Some (mk_notification s msg p.2)
  | _, _ => None
  end.

Definition accepted_entries (ps : list (PublishBody * PublishClock))
    : list (Notification * Z) :=
  omap (λ p, (λ n, (n, t_prune p.2)) <$> accepted_entry p) ps.

(** The clock readings an operation hands to the pruning pass. *)
Definition prune_clocks (o : Op) : list Z :=
  match o with
  | op_append _ now | op_prune now => [now]
  | op_publish body clk =>
    match accepted_entry (default (mkPublishBody None None) body, clk) with
    | Some _ => [t_prune clk]
    | None => []
    end
  | op_publish_batch ps => snd <$> accepted_entries (default [] ps)
  | op_sse q _ clk =>
    match truthy q with
    | Some _ => [t_replay clk]
    | None => []
    end
  | _ => []
  end.

(** A frame written by a broadcast of a [live] event. *)
Definition is_live (p : Chan * Frame) : Prop :=
  match p.2 with
  | data e => type e = live
  | connected _ => False
  end.

Global Instance is_live_dec p : Decision (is_live p).
Proof. unfold is_live. destruct p.2; apply _. Defined.


(** No key of [connections] holds an empty set. *)
Definition no_empty_set (st : State) : Prop :=
  ∀ s, connections st !! s ≠ Some [].


(** ** Properties *)

(** *** Sums over maps of lists *)

Lemma total_size_empty {A} : total_size (∅ : gmap string (list A)) = 0.
Proof. unfold total_size. by rewrite map_fold_empty. Qed.

Lemma total_size_insert_None {A} (m : gmap string (list A)) i x :
  m !! i = None →
  total_size (<[i:=x]> m) = Z.of_nat (length x) + total_size m.
Proof.
  intros Hi. unfold total_size.
  rewrite map_fold_insert_L; [done| |done].
  intros. lia.
Qed.

Lemma total_size_delete {A} (m : gmap string (list A)) i :
  total_size (delete i m)
  = total_size m - Z.of_nat (length (default [] (m !! i))).
Proof.
  destruct (m !! i) as [x|] eqn:Hi; simpl.
  - rewrite <- (insert_delete_id m i x) at 2 by done.
    rewrite total_size_insert_None by apply lookup_delete_eq. lia.
  - rewrite delete_id by done. lia.
Qed.

Lemma total_size_insert {A} (m : gmap string (list A)) i y :
  total_size (<[i:=y]> m)
  = total_size m - Z.of_nat (length (default [] (m !! i)))
    + Z.of_nat (length y).
Proof.
  assert (<[i:=y]> m = <[i:=y]> (delete i m)) as ->
    by (symmetry; apply insert_delete_eq).
  rewrite total_size_insert_None by apply lookup_delete_eq.
  rewrite total_size_delete. lia.
Qed.

Lemma total_size_nonneg {A} (m : gmap string (list A)) : 0 ≤ total_size m.
Proof.
  induction m as [|i x m Hi IH] using map_ind.
  - pose proof (@total_size_empty A). lia.
  - rewrite total_size_insert_None by done. lia.
Qed.

(** *** The pruning pass *)

Lemma prune_entry_metrics now s lst acc :
  let r := prune_entry now s lst acc in
  connectionsTotal r.2 = connectionsTotal acc.2 ∧
  connectionsActive r.2 = connectionsActive acc.2 ∧
  notificationsSent r.2 = notificationsSent acc.2 ∧
  notificationsStored r.2 = notificationsStored acc.2 ∧
  notificationsEvicted r.2
  = notificationsEvicted acc.2
    + (Z.of_nat (length lst)
       - Z.of_nat (length (filter (retained now) lst))).
Proof.
  unfold prune_entry. simpl.
  pose proof (length_filter (retained now) lst).
  repeat case_bool_decide; simpl; repeat split; lia.
Qed.

Lemma prune_entry_lookup now s lst acc k :
  (prune_entry now s lst acc).1 !! k
  = if decide (s = k) then pruned_entry now lst else acc.1 !! k.
Proof.
  unfold prune_entry, pruned_entry. simpl.
  case_bool_decide; simpl.
  - by rewrite lookup_delete.
  - by rewrite lookup_insert.
Qed.

(** The loop, run over any part [m] of the map [s0] it mutates. *)
Lemma prune_fold_spec now (s0 : gmap string (list Notification)) m0 m :
  m ⊆ s0 →
  let r := map_fold (prune_entry now) (s0, m0) m in
  (∀ k, r.1 !! k = match m !! k with
                   | Some lst => pruned_entry now lst
                   | None => s0 !! k
                   end) ∧
  connectionsTotal r.2 = connectionsTotal m0 ∧
  connectionsActive r.2 = connectionsActive m0 ∧
  notificationsSent r.2 = notificationsSent m0 ∧
  notificationsStored r.2 = notificationsStored m0 ∧
  notificationsEvicted m0 ≤ notificationsEvicted r.2 ∧
  notificationsEvicted r.2
  = notificationsEvicted m0 + (total_size s0 - total_size r.1).
Proof.
  simpl.
  apply (map_fold_weak_ind
           (λ r m, m ⊆ s0 →
              (∀ k, r.1 !! k = match m !! k with
                               | Some lst => pruned_entry now lst
                               | None => s0 !! k
                               end) ∧
              connectionsTotal r.2 = connectionsTotal m0 ∧
              connectionsActive r.2 = connectionsActive m0 ∧
              notificationsSent r.2 = notificationsSent m0 ∧
              notificationsStored r.2 = notificationsStored m0 ∧
              notificationsEvicted m0 ≤ notificationsEvicted r.2 ∧
              notificationsEvicted r.2
              = notificationsEvicted m0 + (total_size s0 - total_size r.1))).
  - intros _. simpl. repeat split; try done. lia.
  - intros i x m' r Hi IH Hsub.
    assert (m' ⊆ s0) as Hsub'.
    { etrans; [|exact Hsub]. by apply insert_subseteq. }
    destruct (IH Hsub') as (Hl & Ht & Ha & Hs & Hst & Hmono & He).
    assert (s0 !! i = Some x) as Hx.
    { eapply lookup_weaken; [|exact Hsub]. apply lookup_insert_eq. }
    assert (r.1 !! i = Some x) as Hr.
    { rewrite Hl, Hi. exact Hx. }
    destruct (prune_entry_metrics now i x r) as (Ht' & Ha' & Hs' & Hst' & He').
    split; [|repeat split; try congruence].
    + intros k. rewrite prune_entry_lookup, lookup_insert.
      destruct (decide (i = k)); [done|]. apply Hl.
    + rewrite He'. pose proof (length_filter (retained now) x). lia.
    + rewrite He', He.
      unfold prune_entry. simpl. case_bool_decide as Hlen; simpl.
      * rewrite total_size_delete, Hr. simpl. lia.
      * rewrite total_size_insert, Hr. simpl. lia.
Qed.

Lemma prune_lookup now st k :
  recentNotifications (pruneOldNotifications now st) !! k
  = recentNotifications st !! k ≫= pruned_entry now.
Proof.
  unfold pruneOldNotifications. simpl.
  destruct (prune_fold_spec now (recentNotifications st) (metrics st)
              (recentNotifications st)) as (Hl & _); [done|].
  rewrite Hl. by destruct (recentNotifications st !! k).
Qed.

Lemma pruned_entry_default now lst :
  default [] (pruned_entry now lst) = filter (retained now) lst.
Proof.
  unfold pruned_entry. simpl. case_bool_decide as H; simpl; [|done].
  symmetry. by apply length_zero_iff_nil.
Qed.

Lemma prune_history now st s :
  history (pruneOldNotifications now st) s
  = filter (retained now) (history st s).
Proof.
  unfold history. rewrite prune_lookup.
  destruct (recentNotifications st !! s) as [lst|]; simpl; [|done].
  apply pruned_entry_default.
Qed.


Lemma prune_metrics now st :
  let st' := pruneOldNotifications now st in
  connectionsTotal (metrics st') = connectionsTotal (metrics st) ∧
  connectionsActive (metrics st') = connectionsActive (metrics st) ∧
  notificationsSent (metrics st') = notificationsSent (metrics st) ∧
  notificationsStored (metrics st') = notificationsStored (metrics st) ∧
  notificationsEvicted (metrics st) ≤ notificationsEvicted (metrics st') ∧
  notificationsEvicted (metrics st')
  = notificationsEvicted (metrics st)
    + (total_size (recentNotifications st)
       - total_size (recentNotifications st')).
Proof.
  unfold pruneOldNotifications. simpl.
  by destruct (prune_fold_spec now (recentNotifications st) (metrics st)
                 (recentNotifications st)) as (_ & ?); [done|].
Qed.

(** *** JS sets *)

Lemma JSSet_delete_notin (x : Chan) s :
  x ∉ s → (JSSet.delete x s).2 = s.
Proof.
  intros Hx. unfold JSSet.delete. simpl.
  induction s as [|y s IH]; [done|].
  apply not_elem_of_cons in Hx as [Hne Hx]. rewrite filter_cons.
  destruct (decide (y ≠ x)) as [_|Hn]; [|by destruct Hn].
  f_equal. by apply IH.
Qed.

Lemma JSSet_delete_head (o : Chan) rest :
  NoDup (o :: rest) → (JSSet.delete o (o :: rest)).2 = rest.
Proof.
  intros Hnd. apply NoDup_cons in Hnd as [Ho _].
  pose proof (JSSet_delete_notin o rest Ho) as Hrest.
  unfold JSSet.delete in *. simpl in *.
  rewrite filter_cons. by destruct (decide (o ≠ o)).
Qed.

Lemma JSSet_delete_length_in (x : Chan) s :
  NoDup s → x ∈ s → length s = S (length (JSSet.delete x s).2).
Proof.
  intros Hnd Hx. unfold JSSet.delete. simpl.
  induction Hnd as [|y s Hy Hnd IH]; [by apply elem_of_nil in Hx|].
  rewrite filter_cons. destruct (decide (y ≠ x)) as [Hne|Heq].
  - simpl. f_equal. apply IH. apply elem_of_cons in Hx as [->|]; done.
  - assert (y = x) as -> by (destruct (decide (y = x)); done).
    pose proof (JSSet_delete_notin x s Hy) as Hs.
    unfold JSSet.delete in Hs. simpl in *. by rewrite Hs.
Qed.

Lemma JSSet_delete_NoDup (x : Chan) s : NoDup s → NoDup (JSSet.delete x s).2.
Proof. intros. by apply NoDup_filter. Qed.

Lemma JSSet_delete_gone (x : Chan) s : x ∉ (JSSet.delete x s).2.
Proof. unfold JSSet.delete. simpl. rewrite list_elem_of_filter. tauto. Qed.

Lemma JSSet_add_elem (x : Chan) s : x ∈ JSSet.add x s.
Proof.
  unfold JSSet.add. case_bool_decide; [done|].
  apply elem_of_app. right. by apply list_elem_of_singleton.
Qed.

Lemma JSSet_add_new (x : Chan) s : x ∉ s → JSSet.add x s = s ++ [x].
Proof. intros. unfold JSSet.add. by rewrite bool_decide_false. Qed.

Lemma JSSet_add_NoDup (x : Chan) s : NoDup s → NoDup (JSSet.add x s).
Proof.
  intros Hnd. unfold JSSet.add. case_bool_decide as Hx; [done|].
  apply NoDup_app. repeat split; [done| |apply NoDup_singleton].
  intros y Hy Hy'. apply list_elem_of_singleton in Hy'. congruence.
Qed.

(** *** [registerConnection] *)

Lemma register_connections s c st :
  connections (registerConnection s c st)
  = <[s := JSSet.add c (after_eviction (channels st s))]> (connections st).
Proof.
  unfold registerConnection, after_eviction, evicted_from, channels.
  case_bool_decide; [|done].
  by destruct (JSSet.first (default [] (connections st !! s))).
Qed.

Lemma register_channels s c st s' :
  channels (registerConnection s c st) s'
  = if decide (s = s') then JSSet.add c (after_eviction (channels st s))
    else channels st s'.
Proof.
  unfold channels at 1. rewrite register_connections, lookup_insert.
  by destruct (decide (s = s')).
Qed.

Lemma register_metrics s c st :
  let m := metrics st in
  let m' := metrics (registerConnection s c st) in
  connectionsTotal m' = connectionsTotal m + 1 ∧
  connectionsActive m'
  = match evicted_from (channels st s) with
    | Some _ => Z.max 0 (connectionsActive m - 1)
    | None => connectionsActive m
    end + 1 ∧
  notificationsSent m' = notificationsSent m ∧
  notificationsStored m' = notificationsStored m ∧
  notificationsEvicted m' = notificationsEvicted m.
Proof.
  unfold registerConnection, evicted_from, channels.
  case_bool_decide; [|done].
  by destruct (JSSet.first (default [] (connections st !! s))).
Qed.

Lemma register_frame s c st :
  let st' := registerConnection s c st in
  recentNotifications st' = recentNotifications st ∧
  failing st' = failing st ∧ wire st' = wire st ∧
  ended st'
  = ended st ++ match evicted_from (channels st s) with
                | Some oldest => [oldest]
                | None => []
                end.
Proof.
  unfold registerConnection, evicted_from, channels.
  case_bool_decide; simpl; [|by rewrite app_nil_r].
  destruct (JSSet.first (default [] (connections st !! s))); simpl;
    by rewrite ?app_nil_r.
Qed.

Lemma after_eviction_NoDup set : NoDup set → NoDup (after_eviction set).
Proof.
  intros. unfold after_eviction. destruct (evicted_from set); [|done].
  by apply JSSet_delete_NoDup.
Qed.

Lemma after_eviction_subset set x : x ∈ after_eviction set → x ∈ set.
Proof.
  unfold after_eviction. destruct (evicted_from set); [|done].
  unfold JSSet.delete. simpl. rewrite list_elem_of_filter. tauto.
Qed.

(** A full set loses its head, any other set is kept. *)
Lemma after_eviction_full o rest :
  NoDup (o :: rest) →
  MAX_CONNECTIONS_PER_STUDENT ≤ JSSet.size (o :: rest) →
  evicted_from (o :: rest) = Some o ∧ after_eviction (o :: rest) = rest.
Proof.
  intros Hnd Hfull. unfold after_eviction, evicted_from.
  rewrite bool_decide_true by done. simpl. split; [done|].
  by apply JSSet_delete_head.
Qed.

Lemma after_eviction_room set :
  JSSet.size set < MAX_CONNECTIONS_PER_STUDENT →
  evicted_from set = None ∧ after_eviction set = set.
Proof.
  intros Hroom. unfold after_eviction, evicted_from.
  rewrite bool_decide_false by lia. done.
Qed.

Lemma after_eviction_size set :
  NoDup set → 1 ≤ MAX_CONNECTIONS_PER_STUDENT →
  JSSet.size set ≤ MAX_CONNECTIONS_PER_STUDENT →
  JSSet.size (after_eviction set) < MAX_CONNECTIONS_PER_STUDENT.
Proof.
  intros Hnd Hmax Hle.
  destruct (decide (MAX_CONNECTIONS_PER_STUDENT ≤ JSSet.size set)) as [Hfull|].
  - destruct set as [|o rest]; [unfold JSSet.size in *; simpl in *; lia|].
    destruct (after_eviction_full o rest Hnd Hfull) as [_ ->].
    unfold JSSet.size in *. simpl in *. lia.
  - destruct (after_eviction_room set) as [_ ->]; lia.
Qed.

Lemma JSSet_add_size (x : Chan) s :
  JSSet.size s ≤ JSSet.size (JSSet.add x s) ≤ JSSet.size s + 1.
Proof.
  unfold JSSet.add, JSSet.size. case_bool_decide; [lia|].
  rewrite length_app. simpl. lia.
Qed.

(** *** [unregisterConnection] *)

Lemma unregister_channels s c st s' :
  channels (unregisterConnection s c st) s'
  = if decide (s = s') then (JSSet.delete c (channels st s)).2
    else channels st s'.
Proof.
  unfold unregisterConnection, channels.
  destruct (connections st !! s) as [set|] eqn:Hs; simpl.
  - case_bool_decide as Hsz.
    + destruct (bool_decide (c ∈ set)); simpl;
        rewrite lookup_delete, lookup_insert;
        (destruct (decide (s = s')); [|done]);
        unfold JSSet.size in Hsz;
        by destruct (filter (λ y, y ≠ c) set).
    + destruct (bool_decide (c ∈ set)); simpl;
        rewrite lookup_insert; by destruct (decide (s = s')).
  - destruct (decide (s = s')) as [<-|]; [|done]. by rewrite Hs.
Qed.

Lemma unregister_no_empty_key s c st :
  channels (unregisterConnection s c st) s = [] →
  connections (unregisterConnection s c st) !! s = None.
Proof.
  rewrite unregister_channels. rewrite decide_True by done.
  unfold unregisterConnection, channels.
  destruct (connections st !! s) as [set|] eqn:Hs; simpl; [|done].
  intros Hempty. rewrite bool_decide_true
    by (unfold JSSet.size, JSSet.delete; simpl; by rewrite Hempty).
  destruct (bool_decide (c ∈ set)); simpl; apply lookup_delete_eq.
Qed.

Lemma unregister_metrics s c st :
  let m := metrics st in
  let m' := metrics (unregisterConnection s c st) in
  connectionsTotal m' = connectionsTotal m ∧
  connectionsActive m'
  = (if bool_decide (c ∈ channels st s)
     then Z.max 0 (connectionsActive m - 1) else connectionsActive m) ∧
  notificationsSent m' = notificationsSent m ∧
  notificationsStored m' = notificationsStored m ∧
  notificationsEvicted m' = notificationsEvicted m.
Proof.
  unfold unregisterConnection, channels.
  destruct (connections st !! s) as [set|] eqn:Hs; simpl.
  - destruct (bool_decide (c ∈ set)); simpl; by case_bool_decide.
  - done.
Qed.

Lemma unregister_frame s c st :
  let st' := unregisterConnection s c st in
  recentNotifications st' = recentNotifications st ∧
  failing st' = failing st ∧ wire st' = wire st ∧ ended st' = ended st.
Proof.
  unfold unregisterConnection.
  destruct (connections st !! s) as [set|]; simpl; [|done].
  destruct (bool_decide (c ∈ set)); by case_bool_decide.
Qed.

Lemma unregister_twice s c st :
  unregisterConnection s c (unregisterConnection s c st)
  = unregisterConnection s c st.
Proof.
  pose proof (JSSet_delete_gone c (channels st s)) as Hgone.
  pose proof (unregister_channels s c st s) as Hch.
  rewrite decide_True in Hch by done. rewrite <- Hch in Hgone.
  remember (unregisterConnection s c st) as st1 eqn:Hst1.
  assert (connections st1 !! s ≠ Some []) as Hne.
  { intros Hs. pose proof (unregister_no_empty_key s c st) as Hk.
    rewrite <- Hst1 in Hk. unfold channels in Hk at 1.
    rewrite Hs in Hk. by specialize (Hk eq_refl). }
  clear Hst1 Hch. unfold unregisterConnection, channels in *.
  destruct (connections st1 !! s) as [set|] eqn:Hs; simpl in *; [|done].
  rewrite (bool_decide_false (c ∈ set)) by done. simpl.
  pose proof (JSSet_delete_notin c set Hgone) as Hd.
  unfold JSSet.delete in Hd. simpl in Hd. rewrite Hd.
  rewrite bool_decide_false.
  - rewrite insert_id by done. by destruct st1.
  - unfold JSSet.size. destruct set; [done|]. simpl. lia.
Qed.

(** *** [broadcastToStudent] *)

Lemma broadcast_loop payload set : ∀ st k,
  foldl (broadcast_step payload) (st, k) set
  = (set_wire (wire st ++ broadcast_frames payload (writable st set)) st,
     k + Z.of_nat (length (writable st set))).
Proof.
  induction set as [|c set IH]; intros st k.
  - simpl. rewrite app_nil_r, Z.add_0_r. by destruct st.
  - simpl. unfold broadcast_step at 2, raw_write. simpl.
    unfold writable. rewrite filter_cons.
    case_bool_decide as Hc.
    + rewrite decide_False by tauto. apply IH.
    + rewrite decide_True by done. rewrite IH. simpl.
      unfold writable, set_wire. simpl.
      rewrite <- app_assoc. simpl. f_equal. lia.
Qed.

Lemma broadcast_spec s payload st :
  let r := broadcastToStudent s payload st in
  let reached := writable st (channels st s) in
  r.2 = Z.of_nat (length reached) ∧
  wire r.1 = wire st ++ broadcast_frames payload reached ∧
  connections r.1 = connections st ∧
  recentNotifications r.1 = recentNotifications st ∧
  failing r.1 = failing st ∧ ended r.1 = ended st ∧
  connectionsTotal (metrics r.1) = connectionsTotal (metrics st) ∧
  connectionsActive (metrics r.1) = connectionsActive (metrics st) ∧
  notificationsSent (metrics r.1) = notificationsSent (metrics st) + r.2 ∧
  notificationsStored (metrics r.1) = notificationsStored (metrics st) ∧
  notificationsEvicted (metrics r.1) = notificationsEvicted (metrics st).
Proof.
  unfold broadcastToStudent, channels.
  destruct (connections st !! s) as [set|]; simpl.
  - case_bool_decide as Hsz.
    + destruct set; [|done]. simpl. rewrite app_nil_r, Z.add_0_r. done.
    + rewrite broadcast_loop. simpl. done.
  - rewrite app_nil_r, Z.add_0_r. done.
Qed.

(** *** [addRecentNotification] *)

Lemma add_frame n now st :
  let st' := addRecentNotification n now st in
  connections st' = connections st ∧ failing st' = failing st ∧
  wire st' = wire st ∧ ended st' = ended st.
Proof. done. Qed.

Lemma add_history n now st s :
  history (addRecentNotification n now st) s
  = filter (retained now)
      (history st s ++ if decide (studentId n = s) then [n] else []).
Proof.
  unfold addRecentNotification. rewrite prune_history.
  f_equal. unfold history. simpl. rewrite lookup_insert.
  destruct (decide (studentId n = s)) as [->|]; [done|].
  by rewrite app_nil_r.
Qed.

Lemma add_metrics n now st :
  let m := metrics st in
  let st' := addRecentNotification n now st in
  connectionsTotal (metrics st') = connectionsTotal m ∧
  connectionsActive (metrics st') = connectionsActive m ∧
  notificationsSent (metrics st') = notificationsSent m ∧
  notificationsStored (metrics st') = notificationsStored m + 1 ∧
  notificationsEvicted m ≤ notificationsEvicted (metrics st') ∧
  notificationsEvicted (metrics st')
  = notificationsEvicted m
    + (total_size (recentNotifications st) + 1
       - total_size (recentNotifications st')).
Proof.
  unfold addRecentNotification.
  match goal with
  | |- context [pruneOldNotifications now ?x] =>
    destruct (prune_metrics now x) as (Ht & Ha & Hs & Hst & Hmono & He)
  end.
  simpl in *. repeat split; try done.
  rewrite He. rewrite total_size_insert, length_app. simpl. lia.
Qed.

(** *** The replay loop *)

Lemma replay_loop reply missed_list : ∀ st,
  foldl (λ st n, try_write reply (data (missed_event n)) st) st missed_list
  = set_wire (wire st ++ if bool_decide (reply ∈ failing st) then []
                         else replay_frames reply missed_list) st.
Proof.
  induction missed_list as [|n l IH]; intros st; simpl.
  - destruct st. unfold set_wire. simpl. f_equal.
    case_bool_decide; by rewrite app_nil_r.
  - rewrite IH. unfold try_write, raw_write. simpl.
    case_bool_decide as Hf; simpl.
    + by rewrite bool_decide_true.
    + rewrite bool_decide_false by done.
      unfold set_wire. simpl. by rewrite <- app_assoc.
Qed.

Lemma replay_spec reply missed_list st :
  replay reply missed_list st
  = set_wire (wire st ++ if bool_decide (reply ∈ failing st) then []
                         else replay_frames reply missed_list) st.
Proof.
  unfold replay. case_bool_decide as Hlen; [apply replay_loop|].
  destruct missed_list; [|simpl in Hlen; lia].
  destruct st. unfold set_wire. simpl. f_equal.
  case_bool_decide; by rewrite app_nil_r.
Qed.

(** *** The handlers *)

Lemma truthy_Some v s : truthy v = Some s ↔ v = Some s ∧ s ≠ "".
Proof.
  unfold truthy. destruct v as [x|]; [|split; [done|by intros [? _]]].
  case_bool_decide as Hx; split.
  - done.
  - intros [[= ->] Hne]. done.
  - intros [= ->]. done.
  - intros [[= ->] _]. done.
Qed.

Lemma truthy_None v : truthy v = None ↔ v = None ∨ v = Some "".
Proof.
  unfold truthy. destruct v as [x|]; [|split; [by left|done]].
  case_bool_decide as Hx; split.
  - intros _. right. by rewrite Hx.
  - done.
  - done.
  - intros [|[= ->]]; done.
Qed.

Lemma publish_accepted body clk st s msg :
  truthy (body_studentId body) = Some s →
  truthy (body_message body) = Some msg →
  publish (Some body) clk st
  = let n := mk_notification s msg clk in
    ((broadcastToStudent s (live_event n)
        (addRecentNotification n (t_prune clk) st)).1,
     reply202 (id n)).
Proof. intros Hs Hm. unfold publish. simpl. by rewrite Hs, Hm. Qed.

Lemma publish_rejected body clk st :
  truthy (body_studentId (default (mkPublishBody None None) body)) = None ∨
  truthy (body_message (default (mkPublishBody None None) body)) = None →
  publish body clk st = (st, reply400 "studentId and message required").
Proof.
  intros H. unfold publish.
  destruct (truthy (body_studentId _)), (truthy (body_message _));
    destruct H; done.
Qed.

(** An entry of a batch is handled as a single publish is. *)
Lemma publish_batch_step_publish st ids body clk :
  (publish_batch_step (st, ids) (body, clk)).1
  = (publish (Some body) clk st).1.
Proof.
  unfold publish_batch_step, publish. simpl.
  by destruct (truthy (body_studentId body)), (truthy (body_message body)).
Qed.

Lemma publish_batch_state ps : ∀ st ids,
  (foldl publish_batch_step (st, ids) ps).1
  = foldl (λ st p, (publish (Some p.1) p.2 st).1) st ps.
Proof.
  induction ps as [|[body clk] ps IH]; intros st ids; [done|].
  simpl. rewrite <- publish_batch_step_publish with (ids := ids).
  destruct (publish_batch_step (st, ids) (body, clk)) as [st1 ids1].
  apply IH.
Qed.

Lemma sse_rejected q reply clk st :
  truthy q = None →
  sse q reply clk st = (st, reply400 "studentId is required").
Proof. intros H. unfold sse. by rewrite H. Qed.

Lemma sse_threw q reply clk st s :
  truthy q = Some s → reply ∈ failing st →
  sse q reply clk st = (registerConnection s reply st, threw).
Proof.
  intros H Hf. unfold sse, raw_write. rewrite H.
  destruct (register_frame s reply st) as (_ & -> & _).
  by rewrite bool_decide_true.
Qed.

Lemma sse_accepted q reply clk st s :
  truthy q = Some s → reply ∉ failing st →
  sse q reply clk st
  = let st1 := registerConnection s reply st in
    let st2 := set_wire (wire st1 ++ [(reply, connected (t_connected clk))])
                        st1 in
    let st3 := pruneOldNotifications (t_replay clk) st2 in
    (set_wire (wire st3 ++ replay_frames reply (history st3 s)) st3,
     stream_open).
Proof.
  intros H Hf. unfold sse, raw_write. rewrite H.
  destruct (register_frame s reply st) as (_ & Hfail & _).
  remember (registerConnection s reply st) as st1 eqn:Hst1. clear Hst1.
  simpl in Hfail. rewrite Hfail. rewrite bool_decide_false by done.
  rewrite replay_spec. simpl. rewrite Hfail.
  by rewrite bool_decide_false.
Qed.

(** *** Claims on single functions *)

(** C5 — Prune correctness.  For every recipient, [pruneOldNotifications]
    keeps, in order, exactly the stored entries with
    [now - createdAt <= NOTIFICATION_TTL_MS] and removes the others; a
    recipient whose history becomes empty loses its key; and
    [notificationsEvicted] grows by exactly the number of entries removed
    (the number stored before minus the number stored after). *)
Theorem prune_correct now st :
  let st' := pruneOldNotifications now st in
  (∀ s, history st' s = filter (retained now) (history st s)) ∧
  (∀ s n, n ∈ history st' s
          ↔ n ∈ history st s ∧ now - createdAt n ≤ NOTIFICATION_TTL_MS) ∧
  (∀ s, history st' s = [] ↔ recentNotifications st' !! s = None) ∧
  notificationsEvicted (metrics st') - notificationsEvicted (metrics st)
  = total_size (recentNotifications st)
    - total_size (recentNotifications st').
Proof.
  cbv zeta. split; [|split; [|split]].
  - intros s. apply prune_history.
  - intros s n. rewrite prune_history, list_elem_of_filter.
    unfold retained. tauto.
  - intros s. unfold history. rewrite prune_lookup.
    destruct (recentNotifications st !! s) as [lst|]; simpl; [|done].
    unfold pruned_entry. cbv zeta.
    case_bool_decide as Hlen; simpl; [done|].
    split; [|done]. intros Hnil. by rewrite Hnil in Hlen.
  - destruct (prune_metrics now st) as (_ & _ & _ & _ & _ & He).
    cbv zeta in He. rewrite He. lia.
Qed.

(** C6 — Broadcast isolation and result.  [broadcastToStudent] writes the
    payload to every registered channel of the recipient whose write does
    not throw, in registration order, whatever the other channels do; it
    leaves the registry as it was (a failing channel stays registered); it
    returns the number of successful writes and adds that number to
    [notificationsSent]; with no channel registered it returns 0 and
    changes nothing. *)
Theorem broadcast_isolation s payload st :
  let r := broadcastToStudent s payload st in
  let reached := writable st (channels st s) in
  wire r.1 = wire st ++ broadcast_frames payload reached ∧
  (∀ c, c ∈ reached ↔ c ∈ channels st s ∧ c ∉ failing st) ∧
  connections r.1 = connections st ∧
  r.2 = Z.of_nat (length reached) ∧
  notificationsSent (metrics r.1) = notificationsSent (metrics st) + r.2 ∧
  (channels st s = [] → r = (st, 0)).
Proof.
  destruct (broadcast_spec s payload st)
    as (Hr & Hw & Hc & _ & _ & _ & _ & _ & Hs & _).
  cbv zeta in *.
  split; [exact Hw|]. split.
  { intros c. unfold writable. rewrite list_elem_of_filter. tauto. }
  split; [exact Hc|]. split; [exact Hr|]. split; [exact Hs|].
  intros Hnil. unfold broadcastToStudent, channels in *.
  destruct (connections st !! s) as [set|]; simpl in *; [|done].
  by subst set.
Qed.

Lemma total_size_lookup_le {A} (m : gmap string (list A)) i :
  Z.of_nat (length (default [] (m !! i))) ≤ total_size m.
Proof.
  pose proof (total_size_delete m i).
  pose proof (total_size_nonneg (delete i m)). lia.
Qed.

Lemma unregister_connections s c st :
  connections (unregisterConnection s c st)
  = match connections st !! s with
    | None => connections st
    | Some set =>
      if bool_decide (JSSet.size (JSSet.delete c set).2 = 0)
      then delete s (connections st)
      else <[s := (JSSet.delete c set).2]> (connections st)
    end.
Proof.
  unfold unregisterConnection.
  destruct (connections st !! s) as [set|]; simpl; [|done].
  destruct (bool_decide (c ∈ set)); simpl; case_bool_decide; simpl;
    by rewrite ?delete_insert_eq.
Qed.

Lemma unregister_total_size s c st :
  (∀ s', NoDup (channels st s')) →
  total_size (connections (unregisterConnection s c st))
  = total_size (connections st)
    - (if bool_decide (c ∈ channels st s) then 1 else 0).
Proof.
  intros Hnd. specialize (Hnd s). rewrite unregister_connections.
  unfold channels in *.
  destruct (connections st !! s) as [set|] eqn:Hs; simpl in *.
  - assert (Z.of_nat (length set)
            = Z.of_nat (length (filter (λ y, y ≠ c) set))
              + (if bool_decide (c ∈ set) then 1 else 0)) as Hlen.
    { case_bool_decide as Hc.
      - pose proof (JSSet_delete_length_in c set Hnd Hc) as Hl.
        simpl in Hl. lia.
      - pose proof (JSSet_delete_notin c set Hc) as Hd.
        simpl in Hd. rewrite Hd. lia. }
    destruct (bool_decide (JSSet.size (filter (λ y, y ≠ c) set) = 0))
      eqn:Hsz.
    + apply bool_decide_eq_true in Hsz. unfold JSSet.size in Hsz.
      rewrite total_size_delete, Hs. simpl. lia.
    + rewrite total_size_insert, Hs. simpl. lia.
  - lia.
Qed.

(** C7 — Idempotent disconnect.  In a state whose [connectionsActive]
    counts the channels held, [unregisterConnection] removes the channel
    from the recipient's set and from no other; it lowers
    [connectionsActive] by exactly one when the channel was held and leaves
    it alone otherwise; a second call changes nothing; the counter stays
    non-negative and keeps counting the channels held; and a recipient
    whose set becomes empty loses its key. *)
Theorem unregister_idempotent s c st :
  active_consistent st →
  let st' := unregisterConnection s c st in
  (∀ x, x ∈ channels st' s ↔ x ∈ channels st s ∧ x ≠ c) ∧
  (∀ s', s' ≠ s → channels st' s' = channels st s') ∧
  (c ∈ channels st s →
   connectionsActive (metrics st') = connectionsActive (metrics st) - 1) ∧
  (c ∉ channels st s →
   connectionsActive (metrics st') = connectionsActive (metrics st)) ∧
  unregisterConnection s c st' = st' ∧
  0 ≤ connectionsActive (metrics st') ∧
  (channels st' s = [] → connections st' !! s = None) ∧
  active_consistent st'.
Proof.
  intros [Hnd Hact]. cbv zeta.
  destruct (unregister_metrics s c st) as (_ & Ha & _). cbv zeta in Ha.
  pose proof (unregister_total_size s c st Hnd) as Htot.
  pose proof (total_size_lookup_le (connections st) s) as Hle.
  pose proof (total_size_nonneg (connections st)) as Hnn.
  fold (channels st s) in Hle.
  assert (c ∈ channels st s → 1 ≤ connectionsActive (metrics st)) as Hpos.
  { intros Hc. destruct (channels st s); [by apply elem_of_nil in Hc|].
    simpl in Hle. lia. }
  split.
  { intros x. rewrite unregister_channels, decide_True by done.
    unfold JSSet.delete. simpl. rewrite list_elem_of_filter. tauto. }
  split.
  { intros s' Hne. rewrite unregister_channels. by rewrite decide_False. }
  split.
  { intros Hc. rewrite Ha, bool_decide_true by done.
    specialize (Hpos Hc). lia. }
  split.
  { intros Hc. by rewrite Ha, bool_decide_false. }
  split; [apply unregister_twice|].
  split.
  { rewrite Ha. case_bool_decide; lia. }
  split; [apply unregister_no_empty_key|].
  split.
  - intros s'. rewrite unregister_channels.
    destruct (decide (s = s')); [|done]. by apply JSSet_delete_NoDup.
  - rewrite Ha, Htot. case_bool_decide as Hc; [|lia].
    specialize (Hpos Hc). lia.
Qed.

(** *** The registry under one registration *)

Lemma evicted_from_Some set o :
  evicted_from set = Some o →
  ∃ rest, set = o :: rest ∧ MAX_CONNECTIONS_PER_STUDENT ≤ JSSet.size set.
Proof.
  unfold evicted_from. case_bool_decide as Hfull; [|done].
  destruct set as [|o' rest]; [done|]. intros [= ->]. by exists rest.
Qed.

Lemma register_bounded s c st :
  1 ≤ MAX_CONNECTIONS_PER_STUDENT →
  registry_bounded st → registry_bounded (registerConnection s c st).
Proof.
  intros Hmax Hb s'. rewrite register_channels.
  destruct (decide (s = s')) as [_|_]; [|apply Hb].
  destruct (Hb s) as [Hnd Hsz]. split.
  - by apply JSSet_add_NoDup, after_eviction_NoDup.
  - pose proof (after_eviction_size _ Hnd Hmax Hsz).
    pose proof (JSSet_add_size c (after_eviction (channels st s))). lia.
Qed.

Lemma unregister_bounded s c st :
  registry_bounded st → registry_bounded (unregisterConnection s c st).
Proof.
  intros Hb s'. rewrite unregister_channels.
  destruct (decide (s = s')) as [_|_]; [|apply Hb].
  destruct (Hb s) as [Hnd Hsz]. split.
  - by apply JSSet_delete_NoDup.
  - unfold JSSet.delete, JSSet.size in *. simpl.
    pose proof (length_filter (λ y, y ≠ c) (channels st s)). lia.
Qed.

(** A registration that evicts leaves [connectionsActive] as it was, any
    other adds one to it; either way it keeps counting the channels held. *)
Lemma register_consistent s c st :
  active_consistent st → c ∉ channels st s →
  let st' := registerConnection s c st in
  active_consistent st' ∧
  connectionsActive (metrics st')
  = connectionsActive (metrics st)
    + match evicted_from (channels st s) with Some _ => 0 | None => 1 end.
Proof.
  intros [Hnd Hact] Hc. cbv zeta.
  destruct (register_metrics s c st) as (_ & Ha & _). cbv zeta in Ha.
  pose proof (total_size_lookup_le (connections st) s) as Hle.
  fold (channels st s) in Hle.
  assert (NoDup (JSSet.add c (after_eviction (channels st s)))) as Hnd'
    by (by apply JSSet_add_NoDup, after_eviction_NoDup).
  assert (JSSet.add c (after_eviction (channels st s))
          = after_eviction (channels st s) ++ [c]) as Hadd.
  { apply JSSet_add_new. intros Hin. by apply after_eviction_subset in Hin. }
  assert (total_size (connections (registerConnection s c st))
          = total_size (connections st)
            - Z.of_nat (length (channels st s))
            + Z.of_nat (length (after_eviction (channels st s))) + 1)
    as Htot.
  { rewrite register_connections, total_size_insert, Hadd, length_app.
    fold (channels st s). simpl. lia. }
  split; [split|].
  - intros s'. rewrite register_channels.
    destruct (decide (s = s')); [done|apply Hnd].
  - rewrite Ha, Htot. unfold after_eviction.
    destruct (evicted_from (channels st s)) as [o|] eqn:Hev; [|lia].
    apply evicted_from_Some in Hev as (rest & Hset & _).
    pose proof (Hnd s) as Hnds. rewrite Hset in *.
    rewrite (JSSet_delete_head o rest Hnds). simpl in *. lia.
  - rewrite Ha.
    destruct (evicted_from (channels st s)) as [o|] eqn:Hev; [|lia].
    apply evicted_from_Some in Hev as (rest & Hset & _).
    rewrite Hset in Hle. simpl in Hle. lia.
Qed.

(** *** Operations: what they do to the registry and to the counters *)

Lemma same_registry_refl st : same_registry st st.
Proof. by repeat split. Qed.

Lemma same_registry_trans st1 st2 st3 :
  same_registry st1 st2 → same_registry st2 st3 → same_registry st1 st3.
Proof.
  intros (?&?&?&?&?) (?&?&?&?&?). repeat split; congruence.
Qed.

Lemma counters_le_refl m : counters_le m m.
Proof. unfold counters_le. lia. Qed.

Lemma counters_le_trans m1 m2 m3 :
  counters_le m1 m2 → counters_le m2 m3 → counters_le m1 m3.
Proof. unfold counters_le. lia. Qed.

Lemma broadcast_effect s payload st :
  let st' := (broadcastToStudent s payload st).1 in
  same_registry st st' ∧ counters_le (metrics st) (metrics st') ∧
  recentNotifications st' = recentNotifications st.
Proof.
  destruct (broadcast_spec s payload st)
    as (Hr & _ & Hc & Hst & Hf & He & Ht & Ha & Hs & Hsd & Hev).
  cbv zeta in *. unfold same_registry, counters_le.
  rewrite Hr in Hs.
  repeat split; try done; lia.
Qed.

Lemma add_effect n now st :
  let st' := addRecentNotification n now st in
  same_registry st st' ∧ counters_le (metrics st) (metrics st').
Proof.
  destruct (add_metrics n now st) as (Ht & Ha & Hs & Hsd & Hmono & _).
  cbv zeta in *. unfold same_registry, counters_le.
  repeat split; try done; lia.
Qed.

Lemma prune_effect now st :
  let st' := pruneOldNotifications now st in
  same_registry st st' ∧ counters_le (metrics st) (metrics st').
Proof.
  destruct (prune_metrics now st) as (Ht & Ha & Hs & Hsd & Hmono & _).
  cbv zeta in *. unfold same_registry, counters_le.
  repeat split; try done; lia.
Qed.

Lemma publish_effect body clk st :
  let st' := (publish body clk st).1 in
  same_registry st st' ∧ counters_le (metrics st) (metrics st').
Proof.
  cbv zeta. unfold publish.
  destruct (truthy (body_studentId _)) as [s|];
    [|split; [apply same_registry_refl|apply counters_le_refl]].
  destruct (truthy (body_message _)) as [msg|];
    [|split; [apply same_registry_refl|apply counters_le_refl]].
  cbn [fst].
  match goal with
  | |- context [broadcastToStudent ?s ?e (addRecentNotification ?n ?t st)] =>
    destruct (add_effect n t st) as [Hr1 Hc1];
    destruct (broadcast_effect s e (addRecentNotification n t st))
      as (Hr2 & Hc2 & _)
  end.
  split; [by eapply same_registry_trans|by eapply counters_le_trans].
Qed.

(** What holds across one publish holds across a batch. *)
Lemma publish_batch_inv (P : State → Prop) ps st :
  (∀ body clk st, P st → P (publish (Some body) clk st).1) →
  P st → P (publish_batch ps st).1.
Proof.
  intros Hstep HP. unfold publish_batch.
  destruct ps as [[|p ps]|]; [done| |done].
  cbn [fst]. rewrite publish_batch_state.
  generalize (p :: ps). clear p ps. intros ps. revert st HP.
  induction ps as [|p ps IH]; intros st HP; [done|].
  simpl. apply IH. by apply Hstep.
Qed.

Lemma publish_batch_effect ps st :
  let st' := (publish_batch ps st).1 in
  same_registry st st' ∧ counters_le (metrics st) (metrics st').
Proof.
  cbv zeta.
  apply (publish_batch_inv
           (λ st', same_registry st st'
                   ∧ counters_le (metrics st) (metrics st'))).
  - intros body clk st1 [Hr Hc].
    destruct (publish_effect (Some body) clk st1) as [Hr' Hc'].
    split; [by eapply same_registry_trans|by eapply counters_le_trans].
  - split; [apply same_registry_refl|apply counters_le_refl].
Qed.

Lemma register_counters s c st :
  counters_le (metrics st) (metrics (registerConnection s c st)).
Proof.
  destruct (register_metrics s c st) as (Ht & _ & Hs & Hsd & He).
  cbv zeta in *. unfold counters_le. lia.
Qed.

Lemma unregister_counters s c st :
  counters_le (metrics st) (metrics (unregisterConnection s c st)).
Proof.
  destruct (unregister_metrics s c st) as (Ht & _ & Hs & Hsd & He).
  cbv zeta in *. unfold counters_le. lia.
Qed.

(** After the registration, [GET /sse] touches neither the registry nor the
    connection counters. *)
Lemma sse_effect q reply clk st :
  let st' := (sse q reply clk st).1 in
  same_registry (registry_part (op_sse q reply clk) st) st' ∧
  counters_le (metrics st) (metrics st') ∧
  ∀ s, history st' s = history st s
       ∨ history st' s = filter (retained (t_replay clk)) (history st s).
Proof.
  cbv zeta. unfold registry_part.
  destruct (truthy q) as [s|] eqn:Hq.
  - destruct (decide (reply ∈ failing st)) as [Hf|Hf].
    + rewrite (sse_threw q reply clk st s Hq Hf). cbn [fst].
      split; [apply same_registry_refl|].
      split; [apply register_counters|].
      intros r. left. unfold history.
      by destruct (register_frame s reply st) as (-> & _).
    + rewrite (sse_accepted q reply clk st s Hq Hf). cbn [fst].
      pose proof (register_counters s reply st) as Hc.
      destruct (register_frame s reply st) as (Hst & _).
      remember (registerConnection s reply st) as st1 eqn:Hst1.
      clear Hst1. cbv zeta in Hst.
      match goal with
      | |- context [pruneOldNotifications ?t ?x] =>
        destruct (prune_effect t x) as [Hr2 Hc2];
        pose proof (prune_history t x) as Hh;
        remember (pruneOldNotifications t x) as st3 eqn:Hst3
      end.
      clear Hst3. split; [exact Hr2|]. split.
      * eapply counters_le_trans; [exact Hc|exact Hc2].
      * intros r. right. unfold history in *. simpl in *.
        rewrite Hh. by rewrite Hst.
  - rewrite (sse_rejected q reply clk st Hq). cbn [fst].
    split; [apply same_registry_refl|].
    split; [apply counters_le_refl|]. by left.
Qed.

Lemma run_op_registry o st :
  same_registry (registry_part o st) (run_op o st).
Proof.
  destruct o; cbn [registry_part run_op]; try apply same_registry_refl.
  - apply broadcast_effect.
  - apply add_effect.
  - apply prune_effect.
  - apply publish_effect.
  - apply publish_batch_effect.
  - apply sse_effect.
Qed.

Lemma run_op_counters o st :
  counters_le (metrics st) (metrics (run_op o st)).
Proof.
  destruct o; cbn [run_op].
  - apply register_counters.
  - apply unregister_counters.
  - apply broadcast_effect.
  - apply add_effect.
  - apply prune_effect.
  - apply publish_effect.
  - apply publish_batch_effect.
  - apply sse_effect.
Qed.

(** *** Invariants of the registry *)

Lemma registry_bounded_same st st' :
  same_registry st st' → registry_bounded st → registry_bounded st'.
Proof.
  intros (Hc & _) Hb s. unfold channels in *. rewrite Hc. apply Hb.
Qed.

Lemma active_consistent_same st st' :
  same_registry st st' → active_consistent st → active_consistent st'.
Proof.
  intros (Hc & _ & Ha & _) [Hnd Hact]. split.
  - intros s. unfold channels in *. rewrite Hc. apply Hnd.
  - by rewrite Ha, Hc.
Qed.

Lemma init_bounded :
  0 ≤ MAX_CONNECTIONS_PER_STUDENT → registry_bounded init_state.
Proof.
  intros Hmax s. unfold channels, init_state. simpl.
  rewrite lookup_empty. simpl. split; [apply NoDup_nil_2|].
  unfold JSSet.size. simpl. lia.
Qed.

Lemma init_consistent : active_consistent init_state.
Proof.
  split.
  - intros s. unfold channels, init_state. simpl.
    rewrite lookup_empty. apply NoDup_nil_2.
  - simpl. symmetry. apply total_size_empty.
Qed.

Lemma run_op_bounded o st :
  1 ≤ MAX_CONNECTIONS_PER_STUDENT →
  registry_bounded st → registry_bounded (run_op o st).
Proof.
  intros Hmax Hb.
  apply (registry_bounded_same _ _ (run_op_registry o st)).
  destruct o; cbn [registry_part]; try done.
  - by apply register_bounded.
  - by apply unregister_bounded.
  - destruct (truthy q); [by apply register_bounded|done].
Qed.

Lemma run_ops_snoc os o st :
  run_ops (os ++ [o]) st = run_op o (run_ops os st).
Proof. unfold run_ops. by rewrite foldl_snoc. Qed.

Lemma run_ops_bounded os :
  1 ≤ MAX_CONNECTIONS_PER_STUDENT →
  registry_bounded (run_ops os init_state).
Proof.
  intros Hmax. induction os as [|o os IH] using rev_ind.
  - apply init_bounded. lia.
  - rewrite run_ops_snoc. by apply run_op_bounded.
Qed.

Lemma unregister_consistent s c st :
  active_consistent st → active_consistent (unregisterConnection s c st).
Proof.
  intros [Hnd Hact].
  destruct (unregister_metrics s c st) as (_ & Ha & _). cbv zeta in Ha.
  pose proof (unregister_total_size s c st Hnd) as Htot.
  pose proof (total_size_lookup_le (connections st) s) as Hle.
  fold (channels st s) in Hle. split.
  - intros s'. rewrite unregister_channels.
    destruct (decide (s = s')); [|done]. by apply JSSet_delete_NoDup.
  - rewrite Ha, Htot. case_bool_decide as Hc; [|lia].
    destruct (channels st s); [by apply elem_of_nil in Hc|].
    simpl in Hle. lia.
Qed.

Lemma run_op_consistent o st :
  active_consistent st → admissible o st →
  active_consistent (run_op o st).
Proof.
  intros Hc Hadm.
  apply (active_consistent_same _ _ (run_op_registry o st)).
  destruct o; cbn [registry_part admissible] in *; try done.
  - by apply register_consistent.
  - by apply unregister_consistent.
  - destruct (truthy q); [by apply register_consistent|done].
Qed.

Lemma reachable_consistent st : reachable st → active_consistent st.
Proof.
  induction 1 as [|o st _ IH Hadm];
    [apply init_consistent|by apply run_op_consistent].
Qed.

(** *** Successive registrations *)

Lemma register_all_snoc s cs c st :
  register_all s (cs ++ [c]) st
  = registerConnection s c (register_all s cs st).
Proof. unfold register_all. by rewrite foldl_snoc. Qed.

(** The set after a registration of a reply it does not hold: the oldest
    member leaves a full set, and the new reply goes last. *)
Lemma register_new_channels s c st :
  NoDup (channels st s) → c ∉ channels st s →
  let set := channels st s in
  let st' := registerConnection s c st in
  (JSSet.size set < MAX_CONNECTIONS_PER_STUDENT →
   channels st' s = set ++ [c] ∧ ended st' = ended st) ∧
  (∀ o rest, set = o :: rest →
     MAX_CONNECTIONS_PER_STUDENT ≤ JSSet.size set →
     channels st' s = rest ++ [c] ∧ ended st' = ended st ++ [o]).
Proof.
  intros Hnd Hc. cbv zeta.
  destruct (register_frame s c st) as (_ & _ & _ & He). cbv zeta in He.
  rewrite register_channels, decide_True by done. split.
  - intros Hroom. destruct (after_eviction_room _ Hroom) as [Hev Hae].
    rewrite He, Hev, Hae, app_nil_r. split; [|done].
    by apply JSSet_add_new.
  - intros o rest Hset Hfull. rewrite Hset in *.
    destruct (after_eviction_full o rest Hnd Hfull) as [Hev Hae].
    rewrite He, Hev, Hae. split; [|done].
    apply JSSet_add_new. intros Hin. apply Hc. by apply elem_of_cons; right.
Qed.

Lemma register_all_closed_form s cs : ∀ st,
  let held := channels st s ++ cs in
  let k := (length held - Z.to_nat MAX_CONNECTIONS_PER_STUDENT)%nat in
  1 ≤ MAX_CONNECTIONS_PER_STUDENT →
  NoDup held →
  JSSet.size (channels st s) ≤ MAX_CONNECTIONS_PER_STUDENT →
  channels (register_all s cs st) s = drop k held ∧
  ended (register_all s cs st) = ended st ++ take k held.
Proof.
  induction cs as [|c cs IH] using rev_ind; intros st; cbv zeta;
    intros Hmax Hnd Hsz.
  - rewrite app_nil_r. unfold register_all, JSSet.size in *. simpl.
    replace (length (channels st s) - Z.to_nat MAX_CONNECTIONS_PER_STUDENT)%nat
      with 0%nat by lia.
    by rewrite app_nil_r.
  - rewrite register_all_snoc, app_assoc in *.
    set (L := channels st s ++ cs) in *.
    apply NoDup_app in Hnd as (HndL & HcL & _).
    assert (c ∉ L) as Hc.
    { intros Hin. apply (HcL c Hin). by apply list_elem_of_singleton. }
    destruct (IH st Hmax HndL Hsz) as [Hch Hen]. fold L in Hch, Hen.
    set (M := Z.to_nat MAX_CONNECTIONS_PER_STUDENT) in *.
    set (k := (length L - M)%nat) in *.
    set (st1 := register_all s cs st) in *.
    assert (NoDup (channels st1 s)) as Hnd1.
    { rewrite Hch. rewrite <- (take_drop k L) in HndL.
      by apply NoDup_app in HndL as (_ & _ & ?). }
    assert (c ∉ channels st1 s) as Hc1.
    { rewrite Hch. intros Hin. apply Hc.
      rewrite <- (take_drop k L). apply elem_of_app. by right. }
    destruct (register_new_channels s c st1 Hnd1 Hc1) as [Hroom Hfull].
    rewrite length_app. cbn [length].
    destruct (decide (M ≤ length L)%nat) as [Hge|Hlt].
    + assert (length (drop k L) = M) as Hlen
        by (rewrite length_drop; unfold k; lia).
      destruct (drop k L) as [|o rest] eqn:Hdrop;
        [simpl in Hlen; unfold M in *; lia|].
      destruct (Hfull o rest) as [Hch' Hen'].
      { by rewrite Hch. }
      { rewrite Hch. unfold JSSet.size. rewrite Hlen. unfold M. lia. }
      assert (L !! k = Some o) as Hlk.
      { pose proof (lookup_drop L k 0) as Hl. rewrite Hdrop in Hl.
        simpl in Hl. by rewrite Nat.add_0_r in Hl. }
      replace (length L + 1 - M)%nat with (S k) by (unfold k; lia).
      apply lookup_lt_Some in Hlk as Hklt.
      rewrite drop_app_le, take_app_le by lia.
      rewrite (take_S_r L k o Hlk). rewrite Hch', Hen', Hen.
      rewrite (drop_S L o k Hlk) in Hdrop. injection Hdrop as ->.
      by rewrite app_assoc.
    + assert (k = 0)%nat as Hk0 by (unfold k; lia).
      rewrite Hk0 in *. rewrite drop_0 in Hch. rewrite take_0 in Hen.
      destruct Hroom as [Hch' Hen'].
      { rewrite Hch. unfold JSSet.size, M in *. lia. }
      replace (length L + 1 - M)%nat with 0%nat by lia.
      rewrite drop_0, take_0. by rewrite Hch', Hen', Hen, Hch.
Qed.

(** *** Claims on the registry *)

(** C2 — Bounded fan-out with oldest-wins eviction.  With a limit of at
    least one channel: after any sequence of operations every recipient
    holds at most [MAX_CONNECTIONS_PER_STUDENT] channels; registering
    replies, none of them held before, leaves the recipient with the last
    registered ones, exactly [MAX_CONNECTIONS_PER_STUDENT] of them once
    that many have been registered, and has ended the earlier ones in the
    order of their registration; and each registration on a full set ends
    and removes the channel registered first among those held. *)
Theorem bounded_fan_out :
  1 ≤ MAX_CONNECTIONS_PER_STUDENT →
  (∀ os s, JSSet.size (channels (run_ops os init_state) s)
           ≤ MAX_CONNECTIONS_PER_STUDENT) ∧
  (∀ s cs st,
     NoDup (channels st s ++ cs) →
     JSSet.size (channels st s) ≤ MAX_CONNECTIONS_PER_STUDENT →
     let held := channels st s ++ cs in
     let k := (length held - Z.to_nat MAX_CONNECTIONS_PER_STUDENT)%nat in
     let st' := register_all s cs st in
     channels st' s = drop k held ∧
     ended st' = ended st ++ take k held ∧
     (MAX_CONNECTIONS_PER_STUDENT ≤ JSSet.size held →
      JSSet.size (channels st' s) = MAX_CONNECTIONS_PER_STUDENT)) ∧
  (∀ s c st o rest,
     NoDup (channels st s) → c ∉ channels st s →
     channels st s = o :: rest →
     MAX_CONNECTIONS_PER_STUDENT ≤ JSSet.size (channels st s) →
     channels (registerConnection s c st) s = rest ++ [c] ∧
     ended (registerConnection s c st) = ended st ++ [o]).
Proof.
  intros Hmax. split; [|split].
  - intros os s. by apply run_ops_bounded.
  - intros s cs st Hnd Hsz. cbv zeta.
    destruct (register_all_closed_form s cs st Hmax Hnd Hsz) as [Hch Hen].
    split; [exact Hch|]. split; [exact Hen|].
    intros Hfull. rewrite Hch. unfold JSSet.size in *.
    rewrite length_drop. lia.
  - intros s c st o rest Hnd Hc Hset Hfull.
    destruct (register_new_channels s c st Hnd Hc) as [_ H].
    by apply H.
Qed.

(** C10 — Active-count consistency.  In every state reached from the
    initial one by operations that register a reply once,
    [connectionsActive] is the number of channels held over all
    recipients, hence never negative; and a registration adds one to
    [connectionsTotal], leaving [connectionsActive] as it was when it
    evicts and adding one to it when it does not. *)
Theorem active_count_consistent st :
  reachable st →
  connectionsActive (metrics st) = total_size (connections st) ∧
  0 ≤ connectionsActive (metrics st) ∧
  ∀ s c, c ∉ channels st s →
    let st' := registerConnection s c st in
    connectionsTotal (metrics st') = connectionsTotal (metrics st) + 1 ∧
    (is_Some (evicted_from (channels st s)) →
     connectionsActive (metrics st') = connectionsActive (metrics st)) ∧
    (evicted_from (channels st s) = None →
     connectionsActive (metrics st') = connectionsActive (metrics st) + 1).
Proof.
  intros Hreach. pose proof (reachable_consistent st Hreach) as Hcons.
  destruct Hcons as [Hnd Hact]. split; [exact Hact|]. split.
  { rewrite Hact. apply total_size_nonneg. }
  intros s c Hc. cbv zeta.
  destruct (register_consistent s c st (conj Hnd Hact) Hc) as [_ Ha].
  destruct (register_metrics s c st) as (Ht & _). cbv zeta in Ha, Ht.
  split; [exact Ht|]. split.
  - intros [o Ho]. rewrite Ha, Ho. lia.
  - intros Ho. rewrite Ha, Ho. lia.
Qed.

(** *** Notification ids *)







(** *** Claims on the handlers *)



(** *** One publish against one subscribe *)

Lemma publish_as_steps body clk st s msg :
  truthy (body_studentId body) = Some s →
  truthy (body_message body) = Some msg →
  run_steps (publish_steps s msg clk) st
  = Some (publish (Some body) clk st).1.
Proof.
  intros Hs Hm. by rewrite (publish_accepted body clk st s msg Hs Hm).
Qed.

Lemma sse_as_steps q reply clk st s :
  truthy q = Some s → reply ∉ failing st →
  run_steps (sse_steps s reply clk) st = Some (sse q reply clk st).1.
Proof.
  intros Hq Hf. unfold sse, sse_steps. rewrite Hq.
  destruct (register_frame s reply st) as (_ & Hfl & _). cbv zeta in Hfl.
  cbn [run_steps exec mbind option_bind]. unfold raw_write.
  rewrite Hfl, bool_decide_false by done. reflexivity.
Qed.

Lemma run_steps_app xs ys st :
  run_steps (xs ++ ys) st = run_steps xs st ≫= run_steps ys.
Proof.
  revert st. induction xs as [|x xs IH]; intros st; [done|].
  simpl. destruct (exec x st) as [st1|]; simpl; [apply IH|done].
Qed.

Lemma received_app reply n w w' :
  received reply n (w ++ w')
  = (received reply n w + received reply n w')%nat.
Proof. unfold received. by rewrite filter_app, length_app. Qed.

Lemma received_elem reply n w p :
  p ∈ w → delivers reply n p → (1 ≤ received reply n w)%nat.
Proof.
  intros Hin Hd. unfold received.
  assert (p ∈ filter (delivers reply n) w) as Hf
    by (by apply list_elem_of_filter).
  destruct (filter (delivers reply n) w); [by apply elem_of_nil in Hf|].
  simpl. lia.
Qed.

Section Schedule.

Variables (s : StudentId) (n : Notification) (reply : Chan).
Variables (tp tc tr : Z).
Hypothesis Hrecipient : studentId n = s.
Hypothesis Hfresh_append : retained tp n.
Hypothesis Hfresh_replay : retained tr n.

Lemma exec_monitored x k f st :
  scheduled s n reply tp tc tr x → monitored s n reply k f st →
  ∃ st', exec x st = Some st'
         ∧ monitored s n reply k (monitor_step x f) st'.
Proof.
  destruct f as [[r a] d].
  intros Hx (Hf & Hr & Ha & Hk). cbn [fst snd] in Hr, Ha, Hk.
  destruct Hx as [ -> | [ -> | [ -> | [ -> | [ -> | -> ] ] ] ] ];
    cbn [exec monitor_step]; unfold monitored; cbn [fst snd].
  - (* the append *)
    eexists. split; [reflexivity|].
    split; [exact Hf|]. split; [exact Hr|]. split; [|exact Hk].
    intros _. rewrite add_history, decide_True by done.
    apply list_elem_of_filter. split; [done|].
    apply elem_of_app. right. by apply list_elem_of_singleton.
  - (* the broadcast *)
    eexists. split; [reflexivity|].
    destruct (broadcast_spec s (live_event n) st)
      as (_ & Hw & Hc & Hst & Hfl & _). cbv zeta in *.
    split; [by rewrite Hfl|]. split.
    { unfold channels in *. by rewrite Hc. } split.
    { unfold history in *. by rewrite Hst. }
    rewrite Hw, received_app.
    destruct d; cbn [orb] in *; [lia|].
    destruct r; [|lia].
    assert (1 ≤ received reply n
                  (broadcast_frames (live_event n)
                     (writable st (channels st s))))%nat; [|lia].
    apply (received_elem _ _ _ (reply, data (live_event n)));
      [|by left].
    apply list_elem_of_fmap. exists reply. split; [done|].
    apply list_elem_of_filter. split; [done|by apply Hr].
  - (* the registration *)
    eexists. split; [reflexivity|].
    destruct (register_frame s reply st) as (Hst & Hfl & Hw & _).
    cbv zeta in *.
    split; [by rewrite Hfl|]. split.
    { intros _. rewrite register_channels, decide_True by done.
      apply JSSet_add_elem. } split.
    { unfold history in *. by rewrite Hst. }
    by rewrite Hw.
  - (* the opening comment *)
    unfold raw_write. rewrite bool_decide_false by done.
    eexists. split; [reflexivity|].
    split; [exact Hf|]. split; [exact Hr|]. split; [exact Ha|].
    cbn [wire set_wire]. rewrite received_app. lia.
  - (* the pruning pass *)
    eexists. split; [reflexivity|].
    split; [exact Hf|]. split; [exact Hr|]. split; [|exact Hk].
    intros Hin. rewrite prune_history.
    apply list_elem_of_filter. split; [done|by apply Ha].
  - (* the replay *)
    eexists. split; [reflexivity|]. rewrite replay_spec.
    rewrite bool_decide_false by done.
    split; [exact Hf|]. split; [exact Hr|]. split; [exact Ha|].
    cbn [wire set_wire]. rewrite received_app.
    destruct d; cbn [orb] in *; [lia|].
    destruct a; [|lia].
    assert (1 ≤ received reply n
                  (replay_frames reply
                     (default [] (recentNotifications st !! s))))%nat;
      [|lia].
    apply (received_elem _ _ _ (reply, data (missed_event n)));
      [|by right].
    apply list_elem_of_fmap. exists n. split; [done|by apply Ha].
Qed.

Lemma run_steps_monitored xs : ∀ k f st,
  Forall (scheduled s n reply tp tc tr) xs → monitored s n reply k f st →
  ∃ st', run_steps xs st = Some st'
         ∧ monitored s n reply k (monitor xs f) st'.
Proof.
  induction xs as [|x xs IH]; intros k f st Hxs Hm.
  - by exists st.
  - apply Forall_cons in Hxs as [Hx Hxs].
    destruct (exec_monitored x k f st Hx Hm) as (st1 & He & Hm1).
    destruct (IH k (monitor_step x f) st1 Hxs Hm1) as (st' & Hr & Hm').
    exists st'. split; [|done]. simpl. by rewrite He.
Qed.

End Schedule.

(** Whatever the merge, the last call is the broadcast, with the reply
    registered, or the replay, with the notification stored. *)
Lemma interleavings_monitor s msg pclk reply sclk sched :
  sched ∈ interleavings (publish_steps s msg pclk) (sse_steps s reply sclk) →
  Forall (scheduled s (mk_notification s msg pclk) reply
                    (t_prune pclk) (t_connected sclk) (t_replay sclk))
         sched ∧
  (monitor sched (false, false, false)).2 = true.
Proof.
  unfold publish_steps, sse_steps. cbv zeta. simpl.
  rewrite !elem_of_cons, elem_of_nil.
  intros H.
  repeat (destruct H as [->|H]); try done;
    (split; [repeat apply Forall_cons_2; try apply Forall_nil_2;
             unfold scheduled; tauto|done]).
Qed.

Lemma interleavings_nil_r {A} (xs : list A) : interleavings xs [] = [xs].
Proof. by destruct xs. Qed.

Lemma interleavings_cons {A} (x y : A) xs ys :
  interleavings (x :: xs) (y :: ys)
  = (cons x <$> interleavings xs (y :: ys))
    ++ (cons y <$> interleavings (x :: xs) ys).
Proof. reflexivity. Qed.

(** Every merge is listed. *)
Lemma interleavings_complete {A} (xs ys zs : list A) :
  is_merge xs ys zs → zs ∈ interleavings xs ys.
Proof.
  induction 1 as [ys|xs|x xs ys zs _ IH|y xs ys zs _ IH].
  - by apply list_elem_of_singleton.
  - rewrite interleavings_nil_r. by apply list_elem_of_singleton.
  - destruct ys as [|y ys].
    + rewrite interleavings_nil_r in *.
      apply list_elem_of_singleton in IH as ->.
      by apply list_elem_of_singleton.
    + rewrite interleavings_cons. apply elem_of_app. left.
      apply list_elem_of_fmap. by exists zs.
  - destruct xs as [|x xs].
    + simpl in *. apply list_elem_of_singleton in IH as ->.
      by apply list_elem_of_singleton.
    + rewrite interleavings_cons. apply elem_of_app. right.
      apply list_elem_of_fmap. by exists zs.
Qed.

(** Every listed sequence is a merge. *)
Lemma interleavings_sound {A} (xs : list A) : ∀ ys zs,
  zs ∈ interleavings xs ys → is_merge xs ys zs.
Proof.
  induction xs as [|x xs IHx]; intros ys zs Hin.
  - simpl in Hin. apply list_elem_of_singleton in Hin as ->. constructor.
  - induction ys as [|y ys IHy] in zs, Hin |- *.
    + rewrite interleavings_nil_r in Hin.
      apply list_elem_of_singleton in Hin as ->. constructor.
    + rewrite interleavings_cons in Hin.
      apply elem_of_app in Hin as [Hin|Hin];
        apply list_elem_of_fmap in Hin as (zs' & -> & Hin).
      * apply merge_left. by apply IHx.
      * apply merge_right. by apply IHy.
Qed.

Lemma sequential_orders {A} (xs ys : list A) :
  xs ++ ys ∈ interleavings xs ys ∧ ys ++ xs ∈ interleavings xs ys.
Proof.
  revert ys. induction xs as [|x xs IH]; intros ys.
  - simpl. rewrite app_nil_r. split; apply list_elem_of_singleton; done.
  - induction ys as [|y ys IHy].
    + simpl. rewrite app_nil_r. split; apply list_elem_of_singleton; done.
    + split.
      * simpl. apply elem_of_app. left.
        apply list_elem_of_fmap. exists (xs ++ y :: ys).
        split; [done|]. apply IH.
      * destruct IHy as [_ IHy].
        cbn [interleavings]. apply elem_of_app. right.
        apply list_elem_of_fmap. exists (ys ++ x :: xs).
        split; [done|]. exact IHy.
Qed.

(** C1 (amended) — At-least-once delivery within the retention window.
    Take one publish and one subscribe of the same recipient, on a reply
    whose writes succeed, and suppose the notification is within the
    retention window at the pruning pass of its append and at the pruning
    pass the subscribe runs before its replay.  Then, whatever the order of
    the calls of the two handlers, no call throws and the reply gets at
    least one more frame carrying the notification, [live] or [missed]; in
    particular when one handler runs wholly before the other. *)
Theorem at_least_once_within_retention st s msg pclk reply sclk :
  reply ∉ failing st →
  t_prune pclk - t_created pclk ≤ NOTIFICATION_TTL_MS →
  t_replay sclk - t_created pclk ≤ NOTIFICATION_TTL_MS →
  let n := mk_notification s msg pclk in
  (∀ sched,
     is_merge (publish_steps s msg pclk) (sse_steps s reply sclk) sched →
     ∃ st', run_steps sched st = Some st' ∧
            (received reply n (wire st) < received reply n (wire st'))%nat) ∧
  (s ≠ "" → msg ≠ "" →
   let body := Some (mkPublishBody (Some s) (Some msg)) in
   let publish_first :=
     (sse (Some s) reply sclk (publish body pclk st).1).1 in
   let subscribe_first :=
     (publish body pclk (sse (Some s) reply sclk st).1).1 in
   (received reply n (wire st)
    < received reply n (wire publish_first))%nat ∧
   (received reply n (wire st)
    < received reply n (wire subscribe_first))%nat).
Proof.
  intros Hf Hp Hr. cbv zeta.
  set (n := mk_notification s msg pclk).
  assert (∀ sched,
     sched ∈ interleavings (publish_steps s msg pclk)
                           (sse_steps s reply sclk) →
     ∃ st', run_steps sched st = Some st' ∧
            (received reply n (wire st) < received reply n (wire st'))%nat)
    as Hall.
  { intros sched Hin.
    destruct (interleavings_monitor s msg pclk reply sclk sched Hin)
      as [Hsched Hmon].
    destruct (run_steps_monitored s n reply (t_prune pclk)
                (t_connected sclk) (t_replay sclk) eq_refl Hp Hr sched
                (received reply n (wire st)) (false, false, false) st
                Hsched) as (st' & Hrun & _ & _ & _ & Hk).
    { split; [exact Hf|]. split; [done|]. split; [done|]. simpl. lia. }
    exists st'. split; [exact Hrun|]. fold n in Hmon.
    rewrite Hmon in Hk. lia. }
  split.
  { intros sched Hm. by apply Hall, interleavings_complete. }
  intros Hs Hm.
  assert (truthy (Some s) = Some s) as Hts by (by apply truthy_Some).
  assert (truthy (Some msg) = Some msg) as Htm by (by apply truthy_Some).
  destruct (sequential_orders (publish_steps s msg pclk)
              (sse_steps s reply sclk)) as [Hps Hsp].
  split.
  - destruct (Hall _ Hps) as (st' & Hrun & Hlt).
    rewrite run_steps_app in Hrun.
    rewrite (publish_as_steps (mkPublishBody (Some s) (Some msg))
               pclk st s msg Hts Htm) in Hrun.
    cbn [mbind option_bind] in Hrun.
    rewrite (sse_as_steps (Some s) reply sclk _ s Hts) in Hrun.
    + by injection Hrun as <-.
    + destruct (publish_effect (Some (mkPublishBody (Some s) (Some msg)))
                  pclk st) as [(_ & _ & _ & Hfl & _) _].
      cbv zeta in Hfl. by rewrite Hfl.
  - destruct (Hall _ Hsp) as (st' & Hrun & Hlt).
    rewrite run_steps_app in Hrun.
    rewrite (sse_as_steps (Some s) reply sclk st s Hts Hf) in Hrun.
    cbn [mbind option_bind] in Hrun.
    rewrite (publish_as_steps (mkPublishBody (Some s) (Some msg))
               pclk _ s msg Hts Htm) in Hrun.
    by injection Hrun as <-.
Qed.

(** *** Claims on the counters and on the call sites of the pruning pass *)

Lemma run_op_active_nonneg o st :
  0 ≤ connectionsActive (metrics st) →
  0 ≤ connectionsActive (metrics (run_op o st)).
Proof.
  intros Hnn. destruct (run_op_registry o st) as (_ & _ & -> & _).
  destruct o; cbn [registry_part]; try done.
  - destruct (register_metrics s reply st) as (_ & -> & _).
    destruct (evicted_from (channels st s)); lia.
  - destruct (unregister_metrics s reply st) as (_ & -> & _).
    case_bool_decide; lia.
  - destruct (truthy q) as [s|]; [|done].
    destruct (register_metrics s reply st) as (_ & -> & _).
    destruct (evicted_from (channels st s)); lia.
Qed.

(** C4 (amended) — Four of the five counters only count up:
    [connectionsTotal], [notificationsSent], [notificationsStored] and
    [notificationsEvicted] are never lowered by any operation or sequence
    of operations, and nothing resets them.  [connectionsActive] is a
    gauge: an unregistration that removes a channel lowers it, so does the
    eviction of a registration before the registration adds one, and no
    operation makes it negative. *)
Theorem counters_monotone :
  (∀ o st, counters_le (metrics st) (metrics (run_op o st))) ∧
  (∀ os st, counters_le (metrics st) (metrics (run_ops os st))) ∧
  (∀ os, 0 ≤ connectionsActive (metrics (run_ops os init_state))) ∧
  (∀ s c st,
     connectionsActive (metrics (unregisterConnection s c st))
     = if bool_decide (c ∈ channels st s)
       then Z.max 0 (connectionsActive (metrics st) - 1)
       else connectionsActive (metrics st)) ∧
  (∀ s c st,
     connectionsActive (metrics (registerConnection s c st))
     = match evicted_from (channels st s) with
       | Some _ => Z.max 0 (connectionsActive (metrics st) - 1)
       | None => connectionsActive (metrics st)
       end + 1).
Proof.
  split; [exact run_op_counters|]. split; [|split; [|split]].
  - intros os. induction os as [|o os IH] using rev_ind; intros st.
    + apply counters_le_refl.
    + rewrite run_ops_snoc. eapply counters_le_trans; [apply IH|].
      apply run_op_counters.
  - intros os. induction os as [|o os IH] using rev_ind; [done|].
    rewrite run_ops_snoc. by apply run_op_active_nonneg.
  - intros s c st. by destruct (unregister_metrics s c st) as (_ & -> & _).
  - intros s c st. by destruct (register_metrics s c st) as (_ & -> & _).
Qed.

(** C3 (amended) — The pruning pass runs on the maintenance timer and also
    at the end of every append, hence in every accepted publish and batch
    entry, and in every accepted subscribe before its replay.  Such a pass
    removes exactly the entries older than the retention window at its
    clock reading and adds their number to [notificationsEvicted].
    Registering, unregistering, broadcasting and rejected requests leave
    the store and [notificationsEvicted] as they were. *)
Theorem pruning_call_sites :
  (∀ s c payload st,
     let untouched st' :=
       recentNotifications st' = recentNotifications st ∧
       notificationsEvicted (metrics st')
       = notificationsEvicted (metrics st) in
     untouched (registerConnection s c st) ∧
     untouched (unregisterConnection s c st) ∧
     untouched (broadcastToStudent s payload st).1) ∧
  (∀ body clk st s msg,
     truthy (body_studentId body) = Some s →
     truthy (body_message body) = Some msg →
     let n := mk_notification s msg clk in
     let st' := (publish (Some body) clk st).1 in
     (∀ r, history st' r
           = filter (retained (t_prune clk))
               (history st r ++ if decide (s = r) then [n] else [])) ∧
     notificationsEvicted (metrics st')
     = notificationsEvicted (metrics st)
       + (total_size (recentNotifications st) + 1
          - total_size (recentNotifications st'))) ∧
  (∀ st ids body clk,
     (publish_batch_step (st, ids) (body, clk)).1
     = (publish (Some body) clk st).1) ∧
  (∀ q reply clk st s,
     truthy q = Some s → reply ∉ failing st →
     let st' := (sse q reply clk st).1 in
     (∀ r, history st' r
           = filter (retained (t_replay clk)) (history st r)) ∧
     notificationsEvicted (metrics st')
     = notificationsEvicted (metrics st)
       + (total_size (recentNotifications st)
          - total_size (recentNotifications st'))) ∧
  (∀ body clk q reply sclk st,
     ((publish body clk st).2
      = reply400 "studentId and message required" →
      (publish body clk st).1 = st) ∧
     ((sse q reply sclk st).2 = reply400 "studentId is required" →
      (sse q reply sclk st).1 = st) ∧
     (publish_batch None st).1 = st ∧ (publish_batch (Some []) st).1 = st).
Proof.
  split; [|split; [|split; [|split]]].
  - intros s c payload st. cbv zeta.
    destruct (register_frame s c st) as (Hr & _).
    destruct (register_metrics s c st) as (_ & _ & _ & _ & Hre).
    destruct (unregister_frame s c st) as (Hu & _).
    destruct (unregister_metrics s c st) as (_ & _ & _ & _ & Hue).
    destruct (broadcast_spec s payload st)
      as (_ & _ & _ & Hb & _ & _ & _ & _ & _ & _ & Hbe).
    done.
  - intros body clk st s msg Hs Hm. cbv zeta.
    rewrite (publish_accepted body clk st s msg Hs Hm). cbv zeta.
    cbn [fst].
    set (n := mk_notification s msg clk).
    destruct (broadcast_spec s (live_event n)
                (addRecentNotification n (t_prune clk) st))
      as (_ & _ & _ & Hb & _ & _ & _ & _ & _ & _ & Hbe).
    destruct (add_metrics n (t_prune clk) st) as (_ & _ & _ & _ & _ & Hae).
    cbv zeta in *. split.
    + intros r. unfold history at 1. rewrite Hb.
      fold (history (addRecentNotification n (t_prune clk) st) r).
      by rewrite add_history.
    + by rewrite Hbe, Hae, Hb.
  - intros st ids body clk. apply publish_batch_step_publish.
  - intros q reply clk st s Hq Hf. cbv zeta.
    rewrite (sse_accepted q reply clk st s Hq Hf). cbv zeta. cbn [fst].
    destruct (register_frame s reply st) as (Hst & _).
    destruct (register_metrics s reply st) as (_ & _ & _ & _ & Hre).
    remember (registerConnection s reply st) as st1 eqn:Hst1. clear Hst1.
    cbv zeta in Hst, Hre.
    set (st2 := set_wire (wire st1 ++ [(reply, connected (t_connected clk))])
                         st1).
    pose proof (prune_history (t_replay clk) st2) as Hh.
    destruct (prune_metrics (t_replay clk) st2) as (_ & _ & _ & _ & _ & He).
    remember (pruneOldNotifications (t_replay clk) st2) as st3 eqn:Hst3.
    clear Hst3. cbv zeta in He. split.
    + intros r. unfold history in *. cbn [recentNotifications set_wire].
      rewrite Hh. unfold st2. cbn [recentNotifications set_wire].
      by rewrite Hst.
    + cbn [metrics recentNotifications set_wire]. rewrite He.
      unfold st2. cbn [metrics recentNotifications set_wire].
      by rewrite Hst, Hre.
  - intros body clk q reply sclk st. split; [|split; [|done]].
    + unfold publish.
      destruct (truthy (body_studentId _)); [|done].
      by destruct (truthy (body_message _)).
    + unfold sse. destruct (truthy q); [|done].
      by destruct (raw_write _ _ _).
Qed.

(** *** Predicates kept by the handlers *)

(** [GET /sse] keeps what the registration, the pruning pass and writes of
    frames that are not [live] keep. *)
Lemma sse_closed (P : State → Prop) q reply clk st :
  (∀ s c st, P st → P (registerConnection s c st)) →
  (∀ now st, P st → P (pruneOldNotifications now st)) →
  (∀ w st, Forall (λ p, ¬ is_live p) w → P st →
           P (set_wire (wire st ++ w) st)) →
  P st → P (sse q reply clk st).1.
Proof.
  intros Hreg Hprune Hwrite HP.
  destruct (truthy q) as [s|] eqn:Hq;
    [|by rewrite (sse_rejected q reply clk st Hq)].
  destruct (decide (reply ∈ failing st)) as [Hf|Hf].
  - rewrite (sse_threw q reply clk st s Hq Hf). by apply Hreg.
  - rewrite (sse_accepted q reply clk st s Hq Hf). cbv zeta. cbn [fst].
    apply Hwrite.
    + unfold replay_frames. apply Forall_fmap, Forall_forall.
      intros n _. unfold is_live. simpl. discriminate.
    + apply Hprune, Hwrite; [|by apply Hreg].
      apply Forall_cons. split; [|apply Forall_nil_2].
      unfold is_live. simpl. tauto.
Qed.

(** [POST /publish] keeps what the append and the broadcast of a [live]
    event keep. *)
Lemma publish_closed (P : State → Prop) body clk st :
  (∀ n now st, P st → P (addRecentNotification n now st)) →
  (∀ s n st, P st → P (broadcastToStudent s (live_event n) st).1) →
  P st → P (publish body clk st).1.
Proof.
  intros Hadd Hb HP. unfold publish.
  destruct (truthy (body_studentId _)) as [s|]; [|done].
  destruct (truthy (body_message _)) as [msg|]; [|done].
  cbn [fst]. by apply Hb, Hadd.
Qed.


Lemma run_op_closed (P : State → Prop) o st :
  (∀ s c st, P st → P (registerConnection s c st)) →
  (∀ s c st, P st → P (unregisterConnection s c st)) →
  (∀ n now st, P st → P (addRecentNotification n now st)) →
  (∀ now st, P st → P (pruneOldNotifications now st)) →
  (∀ s payload st, P st → P (broadcastToStudent s payload st).1) →
  (∀ w st, P st → P (set_wire (wire st ++ w) st)) →
  P st → P (run_op o st).
Proof.
  intros Hreg Hunreg Hadd Hprune Hb Hwrite HP.
  destruct o; cbn [run_op]; auto.
  - apply publish_closed; auto.
  - apply publish_batch_inv; [|done].
    intros b c st1 HP1. apply publish_closed; auto.
  - apply sse_closed; auto.
Qed.

Lemma run_ops_closed (P : State → Prop) os st :
  (∀ o st, P st → P (run_op o st)) → P st → P (run_ops os st).
Proof.
  intros Hstep HP. induction os as [|o os IH] using rev_ind; [done|].
  rewrite run_ops_snoc. by apply Hstep.
Qed.



(** *** Accounting invariants *)




(** X5 — Every notification counted in [notificationsStored] is either still
    in the store or counted in [notificationsEvicted]: after any sequence of
    operations from the initial state, [notificationsStored] minus
    [notificationsEvicted] is the number of notifications held in
    [recentNotifications]. *)
Theorem stored_evicted_balance os :
  let st := run_ops os init_state in
  notificationsStored (metrics st) - notificationsEvicted (metrics st)
  = total_size (recentNotifications st).
Proof.
  cbv zeta.
  apply (run_ops_closed
           (λ st, notificationsStored (metrics st)
                  - notificationsEvicted (metrics st)
                  = total_size (recentNotifications st))).
  - intros o st HP. apply run_op_closed; [| | | | | |exact HP]; clear.
    + intros s c st HP.
      destruct (register_frame s c st) as (-> & _).
      by destruct (register_metrics s c st) as (_ & _ & _ & -> & ->).
    + intros s c st HP.
      destruct (unregister_frame s c st) as (-> & _).
      by destruct (unregister_metrics s c st) as (_ & _ & _ & -> & ->).
    + intros n now st HP.
      destruct (add_metrics n now st) as (_ & _ & _ & -> & _ & ->). lia.
    + intros now st HP.
      destruct (prune_metrics now st) as (_ & _ & _ & -> & _ & ->). lia.
    + intros s payload st HP.
      by destruct (broadcast_spec s payload st)
        as (_ & _ & _ & -> & _ & _ & _ & _ & _ & -> & ->).
    + done.
  - simpl. symmetry. apply total_size_empty.
Qed.

(** X7 — After any sequence of operations from the initial state the number
    of active connections lies between zero and the number of connections
    ever opened. *)
Theorem active_le_total os :
  let st := run_ops os init_state in
  0 ≤ connectionsActive (metrics st) ≤ connectionsTotal (metrics st).
Proof.
  cbv zeta.
  apply (run_ops_closed
           (λ st, 0 ≤ connectionsActive (metrics st)
                  ≤ connectionsTotal (metrics st))); [|done].
  intros o st HP. apply run_op_closed; [| | | | | |exact HP]; clear.
  - intros s c st HP.
    destruct (register_metrics s c st) as (-> & -> & _).
    destruct (evicted_from (channels st s)); lia.
  - intros s c st HP.
    destruct (unregister_metrics s c st) as (-> & -> & _).
    case_bool_decide; lia.
  - intros n now st HP.
    by destruct (add_metrics n now st) as (-> & -> & _).
  - intros now st HP.
    by destruct (prune_metrics now st) as (-> & -> & _).
  - intros s payload st HP.
    by destruct (broadcast_spec s payload st)
      as (_ & _ & _ & _ & _ & _ & -> & -> & _).
  - done.
Qed.



(** *** Keys of the two maps *)

Lemma register_no_empty_set s c st :
  no_empty_set st → no_empty_set (registerConnection s c st).
Proof.
  intros Hne s'. rewrite register_connections, lookup_insert.
  destruct (decide (s = s')) as [_|_]; [|apply Hne].
  intros [= Hnil]. pose proof (JSSet_add_elem c (after_eviction (channels st s)))
    as Hin.
  rewrite Hnil in Hin. by apply elem_of_nil in Hin.
Qed.

Lemma unregister_no_empty_set s c st :
  no_empty_set st → no_empty_set (unregisterConnection s c st).
Proof.
  intros Hne s'. rewrite unregister_connections.
  destruct (connections st !! s) as [set|] eqn:Hs; [|apply Hne].
  case_bool_decide as Hsz.
  - rewrite lookup_delete. destruct (decide (s = s')); [done|apply Hne].
  - rewrite lookup_insert. destruct (decide (s = s')); [|apply Hne].
    intros Hnil. apply Hsz.
    assert ((JSSet.delete c set).2 = []) as -> by congruence. done.
Qed.

Lemma run_op_no_empty_set o st :
  no_empty_set st → no_empty_set (run_op o st).
Proof.
  intros HP. apply run_op_closed; [| | | | | |exact HP]; clear.
  - apply register_no_empty_set.
  - apply unregister_no_empty_set.
  - done.
  - done.
  - intros s payload st HP s'.
    destruct (broadcast_spec s payload st) as (_ & _ & -> & _). apply HP.
  - done.
Qed.

Lemma init_no_empty_set : no_empty_set init_state.
Proof. intros s. simpl. by rewrite lookup_empty. Qed.

Lemma reachable_no_empty_set st : reachable st → no_empty_set st.
Proof.
  induction 1 as [|o st _ IH _];
    [apply init_no_empty_set|by apply run_op_no_empty_set].
Qed.

Lemma size_le_total_size {A} (m : gmap string (list A)) :
  (∀ s, m !! s ≠ Some []) → Z.of_nat (size m) ≤ total_size m.
Proof.
  induction m as [|i x m Hi IH] using map_ind; intros Hne.
  - rewrite map_size_empty. pose proof (@total_size_empty A). lia.
  - rewrite map_size_insert_None, total_size_insert_None by done.
    assert (x ≠ []) as Hx.
    { intros ->. apply (Hne i). apply lookup_insert_eq. }
    assert (Z.of_nat (size m) ≤ total_size m) as Hm.
    { apply IH. intros s Hs. apply (Hne s).
      destruct (decide (i = s)) as [->|Hn]; [congruence|].
      by rewrite lookup_insert_ne. }
    destruct x; [done|]. simpl. lia.
Qed.

(** X3 — What [GET /metrics] reports as [studentsWithConnections].  In a
    state reached by operations that register a reply once, a recipient has a
    key in [connections] exactly when it holds a channel, so the number of
    keys is the number of recipients with a live connection, and it is at
    most [connectionsActive]. *)
Theorem students_with_connections st :
  reachable st →
  let r := get_metrics st in
  reply_metrics r = metrics st ∧
  studentsWithConnections r = Z.of_nat (size (dom (connections st))) ∧
  (∀ s, s ∈ dom (connections st) ↔ channels st s ≠ []) ∧
  0 ≤ studentsWithConnections r ≤ connectionsActive (reply_metrics r).
Proof.
  intros Hreach. cbv zeta. cbn [get_metrics reply_metrics studentsWithConnections].
  pose proof (reachable_no_empty_set st Hreach) as Hne.
  destruct (reachable_consistent st Hreach) as [_ Hact].
  split; [done|]. split; [by rewrite size_dom|]. split.
  - intros s. rewrite elem_of_dom. unfold channels.
    specialize (Hne s). destruct (connections st !! s) as [set|]; simpl.
    + split; [intros _ Hnil; by subst|by eexists].
    + split; [by intros [? ?]|done].
  - rewrite Hact. pose proof (size_le_total_size (connections st) Hne). lia.
Qed.

(** A reply that is not held, for a recipient without an empty set under its
    key, is unregistered without any effect. *)
Lemma unregister_absent s c st :
  connections st !! s ≠ Some [] → c ∉ channels st s →
  unregisterConnection s c st = st.
Proof.
  intros Hne Hc. unfold unregisterConnection, channels in *.
  destruct (connections st !! s) as [set|] eqn:Hs; simpl in *; [|done].
  rewrite (bool_decide_false (c ∈ set)) by done. simpl.
  pose proof (JSSet_delete_notin c set Hc) as Hd.
  unfold JSSet.delete in Hd. simpl in Hd. rewrite Hd.
  rewrite bool_decide_false.
  - rewrite insert_id by done. by destruct st.
  - unfold JSSet.size. destruct set; [done|]. simpl. lia.
Qed.

(** X15 — Closing a stream that is not registered changes nothing: after any
    sequence of operations from the initial state, [unregisterConnection] on
    a reply the recipient does not hold, or on a recipient without a key,
    returns the state as it was. *)
Theorem unregister_unknown_noop os s c :
  let st := run_ops os init_state in
  c ∉ channels st s → unregisterConnection s c st = st.
Proof.
  cbv zeta. intros Hc. apply unregister_absent; [|done].
  apply (run_ops_closed no_empty_set);
    [apply run_op_no_empty_set|apply init_no_empty_set].
Qed.

(** X8 — The close event of an evicted reply is harmless.  When a
    registration of a new reply evicts the oldest one from a duplicate-free
    set, running the evicted reply's [onClose] afterwards, as its
    [raw.end()] will cause, leaves the state exactly as the registration
    left it: no second decrement of [connectionsActive], no change of the
    set. *)
Theorem evicted_close_noop s c o st :
  NoDup (channels st s) → c ∉ channels st s →
  evicted_from (channels st s) = Some o →
  let st' := registerConnection s c st in
  (o ∉ channels st' s) ∧ c ∈ channels st' s ∧ o ∈ ended st' ∧
  onClose s o st' = st'.
Proof.
  intros Hnd Hc Hev. cbv zeta.
  destruct (evicted_from_Some _ _ Hev) as (rest & Hset & Hfull).
  rewrite Hset in Hnd, Hfull.
  destruct (after_eviction_full o rest Hnd Hfull) as [_ Hae].
  assert (channels (registerConnection s c st) s = rest ++ [c]) as Hch.
  { rewrite register_channels, decide_True by done. rewrite Hset, Hae.
    apply JSSet_add_new. intros Hin. apply Hc. rewrite Hset.
    by apply elem_of_cons; right. }
  assert (o ∉ rest ++ [c]) as Ho.
  { apply NoDup_cons in Hnd as [Hor _]. intros Hin.
    apply elem_of_app in Hin as [Hin|Hin]; [done|].
    apply list_elem_of_singleton in Hin as ->.
    apply Hc. rewrite Hset. by apply elem_of_cons; left. }
  split; [by rewrite Hch|]. split.
  { rewrite Hch. apply elem_of_app. right. by apply list_elem_of_singleton. }
  split.
  { destruct (register_frame s c st) as (_ & _ & _ & ->). rewrite Hev.
    apply elem_of_app. right. by apply list_elem_of_singleton. }
  unfold onClose. apply unregister_absent; [|by rewrite Hch].
  rewrite register_connections, lookup_insert_eq. intros [= Hnil].
  pose proof (JSSet_add_elem c (after_eviction (channels st s))) as Hin.
  rewrite Hnil in Hin. by apply elem_of_nil in Hin.
Qed.

(** X9 — Connect then disconnect is a round trip on the registry.  For a
    reply the recipient does not hold, a set with room and no empty set
    under the recipient's key, registering the reply and then closing it
    gives back the [connections] map and, when it was not negative, the
    value of [connectionsActive]; only [connectionsTotal] has moved, by
    one. *)
Theorem register_unregister_roundtrip s c st :
  connections st !! s ≠ Some [] → c ∉ channels st s →
  JSSet.size (channels st s) < MAX_CONNECTIONS_PER_STUDENT →
  0 ≤ connectionsActive (metrics st) →
  let st' := onClose s c (registerConnection s c st) in
  connections st' = connections st ∧
  connectionsActive (metrics st') = connectionsActive (metrics st) ∧
  connectionsTotal (metrics st') = connectionsTotal (metrics st) + 1 ∧
  recentNotifications st' = recentNotifications st ∧
  wire st' = wire st ∧ ended st' = ended st.
Proof.
  intros Hne Hc Hroom Hact. cbv zeta. unfold onClose.
  destruct (after_eviction_room _ Hroom) as [Hev Hae].
  destruct (register_metrics s c st) as (Ht & Ha & _).
  destruct (register_frame s c st) as (Hst & _ & Hw & He).
  rewrite Hev in Ha, He. rewrite app_nil_r in He.
  assert (channels (registerConnection s c st) s = channels st s ++ [c])
    as Hch.
  { rewrite register_channels, decide_True by done. rewrite Hae.
    by apply JSSet_add_new. }
  set (st1 := registerConnection s c st) in *.
  destruct (unregister_metrics s c st1) as (Ht' & Ha' & _).
  destruct (unregister_frame s c st1) as (Hst' & _ & Hw' & He').
  cbv zeta in *.
  rewrite Hch in Ha'. rewrite bool_decide_true in Ha'
    by (apply elem_of_app; right; by apply list_elem_of_singleton).
  split; [|repeat split; try congruence; lia].
  rewrite unregister_connections. unfold st1.
  rewrite register_connections, lookup_insert_eq, Hae.
  rewrite JSSet_add_new by done.
  assert ((JSSet.delete c (channels st s ++ [c])).2 = channels st s) as ->.
  { unfold JSSet.delete. cbn [snd]. rewrite filter_app.
    pose proof (JSSet_delete_notin c (channels st s) Hc) as Hd.
    unfold JSSet.delete in Hd. cbn [snd] in Hd. rewrite Hd.
    rewrite filter_cons. destruct (decide (c ≠ c)); [done|].
    by rewrite filter_nil, app_nil_r. }
  unfold channels in *.
  destruct (connections st !! s) as [set|] eqn:Hs; simpl.
  - rewrite bool_decide_false.
    + rewrite insert_insert_eq. by apply insert_id.
    + unfold JSSet.size. destruct set; [done|]. simpl. lia.
  - rewrite delete_insert_eq. by apply delete_id.
Qed.

(** *** The store over time *)

Lemma pruned_entry_Some now lst f :
  pruned_entry now lst = Some f → f = filter (retained now) lst ∧ f ≠ [].
Proof.
  unfold pruned_entry. cbv zeta. case_bool_decide as Hlen; [done|].
  intros [= <-]. split; [done|]. intros Hnil. by rewrite Hnil in Hlen.
Qed.






(** *** Retention across operations *)

Lemma publish_keeps b clk st s n :
  Forall (λ t, retained t n) (prune_clocks (op_publish (Some b) clk)) →
  n ∈ history st s → n ∈ history (publish (Some b) clk st).1 s.
Proof.
  intros Hret Hn.
  destruct (truthy (body_studentId b)) as [r|] eqn:Hs;
    [|rewrite publish_rejected; [exact Hn|left; exact Hs]].
  destruct (truthy (body_message b)) as [msg|] eqn:Hm;
    [|rewrite publish_rejected; [exact Hn|right; exact Hm]].
  rewrite (publish_accepted b clk st r msg Hs Hm). cbv zeta. cbn [fst].
  cbn [prune_clocks] in Hret. unfold accepted_entry in Hret.
  change (default (mkPublishBody None None) (Some b)) with b in Hret.
  cbn [fst snd] in Hret. rewrite Hs, Hm in Hret.
  apply Forall_cons in Hret as [Hret _].
  match goal with
  | |- context [broadcastToStudent ?r ?e ?x] =>
    destruct (broadcast_spec r e x) as (_ & _ & _ & Hst & _)
  end.
  cbv zeta in Hst. unfold history. rewrite Hst.
  fold (history (addRecentNotification (mk_notification r msg clk)
                   (t_prune clk) st) s).
  rewrite add_history. apply list_elem_of_filter. split; [done|].
  apply elem_of_app. by left.
Qed.

Lemma accepted_entries_cons p ps :
  accepted_entries (p :: ps)
  = match accepted_entry p with
    | Some n => [(n, t_prune p.2)]
    | None => []
    end ++ accepted_entries ps.
Proof.
  unfold accepted_entries. cbn [omap list_omap].
  by destruct (accepted_entry p).
Qed.

(** X10 — A stored notification stays stored for as long as it is within the
    retention window: an operation keeps, for every recipient, each
    notification that is retained at all the clock readings the operation
    hands to the pruning pass.  Registering, unregistering, broadcasting and
    rejected requests hand it none. *)
Theorem retained_entries_survive o st s n :
  Forall (λ t, retained t n) (prune_clocks o) →
  n ∈ history st s → n ∈ history (run_op o st) s.
Proof.
  intros Hret Hn. destruct o; cbn [run_op prune_clocks] in *.
  - unfold history. by destruct (register_frame s0 reply st) as (-> & _).
  - unfold history. by destruct (unregister_frame s0 reply st) as (-> & _).
  - unfold history.
    by destruct (broadcast_spec s0 payload st) as (_ & _ & _ & -> & _).
  - apply Forall_cons in Hret as [Hret _].
    rewrite add_history. apply list_elem_of_filter. split; [done|].
    apply elem_of_app. by left.
  - apply Forall_cons in Hret as [Hret _].
    rewrite prune_history. by apply list_elem_of_filter.
  - destruct body as [b|]; [by apply publish_keeps|done].
  - unfold publish_batch. destruct ps as [[|p ps]|]; [done| |done].
    change (default [] (Some (p :: ps))) with (p :: ps) in Hret.
    cbn [fst]. rewrite publish_batch_state.
    revert st Hn Hret. generalize (p :: ps). clear p ps.
    intros ps. induction ps as [|[b clk] ps IH]; intros st Hn Hret; [done|].
    rewrite accepted_entries_cons, fmap_app in Hret.
    apply Forall_app in Hret as [Hp Hps].
    cbn [foldl fst snd]. apply IH; [|done].
    apply publish_keeps; [|done]. cbn [prune_clocks].
    change (default (mkPublishBody None None) (Some b)) with b.
    destruct (accepted_entry (b, clk)); [|apply Forall_nil_2].
    by rewrite fmap_cons in Hp.
  - destruct (truthy q) as [r|] eqn:Hq;
      [|by rewrite (sse_rejected q reply clk st Hq)].
    apply Forall_cons in Hret as [Hret _].
    destruct (sse_effect q reply clk st) as (_ & _ & Hh).
    destruct (Hh s) as [->| ->]; [done|]. by apply list_elem_of_filter.
Qed.

Lemma Metrics_eq m m' :
  connectionsTotal m = connectionsTotal m' →
  connectionsActive m = connectionsActive m' →
  notificationsSent m = notificationsSent m' →
  notificationsStored m = notificationsStored m' →
  notificationsEvicted m = notificationsEvicted m' → m = m'.
Proof. destruct m, m'. simpl. by intros -> -> -> -> ->. Qed.

Lemma State_eq st st' :
  connections st = connections st' →
  recentNotifications st = recentNotifications st' →
  metrics st = metrics st' → failing st = failing st' →
  wire st = wire st' → ended st = ended st' → st = st'.
Proof. destruct st, st'. simpl. by intros -> -> -> -> -> ->. Qed.

(** X14 — Pruning passes compose: a pass at a later clock reading after a
    pass at an earlier one leaves exactly the state the later pass alone
    leaves, counters included; in particular a second pass at the same
    reading changes nothing. *)
Theorem prune_later_absorbs now1 now2 st :
  now1 ≤ now2 →
  pruneOldNotifications now2 (pruneOldNotifications now1 st)
  = pruneOldNotifications now2 st ∧
  pruneOldNotifications now2 (pruneOldNotifications now2 st)
  = pruneOldNotifications now2 st.
Proof.
  assert (∀ t1 t2, t1 ≤ t2 →
            pruneOldNotifications t2 (pruneOldNotifications t1 st)
            = pruneOldNotifications t2 st) as Hgen.
  { intros t1 t2 Hle.
    set (st1 := pruneOldNotifications t1 st).
    assert (recentNotifications (pruneOldNotifications t2 st1)
            = recentNotifications (pruneOldNotifications t2 st)) as Hstore.
    { apply map_eq. intros k. rewrite !prune_lookup. unfold st1.
      rewrite prune_lookup.
      destruct (recentNotifications st !! k) as [lst|]; [|done]. simpl.
      assert (filter (retained t2) (filter (retained t1) lst)
              = filter (retained t2) lst) as Hff.
      { apply list_filter_filter_l. unfold retained. intros x. lia. }
      destruct (pruned_entry t1 lst) as [f|] eqn:Hf; simpl.
      - apply pruned_entry_Some in Hf as [-> _].
        unfold pruned_entry. cbv zeta. by rewrite Hff.
      - unfold pruned_entry in *. cbv zeta in *.
        case_bool_decide as Hlen; [|done].
        apply length_zero_iff_nil in Hlen. rewrite Hlen in Hff.
        rewrite filter_nil in Hff. rewrite <- Hff. done. }
    destruct (prune_metrics t1 st) as (Ht1 & Ha1 & Hs1 & Hsd1 & _ & He1).
    destruct (prune_metrics t2 st1) as (Ht2 & Ha2 & Hs2 & Hsd2 & _ & He2).
    destruct (prune_metrics t2 st) as (Ht & Ha & Hs & Hsd & _ & He).
    cbv zeta in *. fold st1 in Ht1, Ha1, Hs1, Hsd1, He1.
    apply State_eq; try done.
    apply Metrics_eq; try congruence.
    rewrite He2, He1, He, Hstore. lia. }
  intros Hle. split; apply Hgen; lia.
Qed.

(** *** Outcomes of the handlers *)

Lemma missing_truthy v : missing v ↔ truthy v = None.
Proof. unfold missing. by rewrite truthy_None. Qed.

(** X11 — The three outcomes of [GET /sse].  The handler answers 400
    exactly when [studentId] is absent or empty, and then changes nothing.
    Otherwise it registers the reply; when the write of the opening comment
    throws it stops there, with the reply registered and counted, and
    nothing written, pruned or replayed; and when that write succeeds the
    stream stays open. *)
Theorem sse_outcomes q reply clk st :
  let r := sse q reply clk st in
  (r.2 = reply400 "studentId is required" ↔ missing q) ∧
  (r.2 = threw ↔ ¬ missing q ∧ reply ∈ failing st) ∧
  (r.2 = stream_open ↔ ¬ missing q ∧ reply ∉ failing st) ∧
  (missing q → r.1 = st) ∧
  (∀ s, truthy q = Some s → reply ∈ failing st →
     r.1 = registerConnection s reply st ∧ reply ∈ channels r.1 s ∧
     wire r.1 = wire st ∧ recentNotifications r.1 = recentNotifications st ∧
     connectionsTotal (metrics r.1) = connectionsTotal (metrics st) + 1).
Proof.
  cbv zeta. rewrite missing_truthy.
  destruct (truthy q) as [s|] eqn:Hq.
  - destruct (decide (reply ∈ failing st)) as [Hf|Hf].
    + rewrite (sse_threw q reply clk st s Hq Hf). cbn [fst snd].
      destruct (register_frame s reply st) as (Hst & _ & Hw & _).
      destruct (register_metrics s reply st) as (Ht & _).
      split; [done|]. split; [done|]. split.
      { split; [done|]. by intros [_ ?]. }
      split; [done|]. intros s' [= <-] _.
      split; [done|]. split; [|done].
      rewrite register_channels, decide_True by done. apply JSSet_add_elem.
    + rewrite (sse_accepted q reply clk st s Hq Hf). cbv zeta. cbn [fst snd].
      split; [done|]. split.
      { split; [done|]. by intros [_ ?]. }
      split; [done|]. split; [done|]. by intros s' _ ?.
  - rewrite (sse_rejected q reply clk st Hq). cbn [fst snd].
    split; [done|]. split.
    { split; [done|]. by intros [? _]. }
    split.
    { split; [done|]. by intros [? _]. }
    split; [done|]. by intros s' ?.
Qed.

(** X12 — After the last stream of a recipient has closed, a publish to that
    recipient is accepted and stored but sent to nobody: the key of the
    recipient is gone from [connections], the publish answers 202, writes no
    frame and leaves [notificationsSent] as it was, and
    [notificationsStored] grows by one. *)
Theorem publish_after_last_close s c body clk st msg :
  channels st s = [c] →
  truthy (body_studentId body) = Some s →
  truthy (body_message body) = Some msg →
  let st1 := onClose s c st in
  let r := publish (Some body) clk st1 in
  connections st1 !! s = None ∧
  r.2 = reply202 (mk_id (t_id clk) (rnd clk)) ∧
  wire r.1 = wire st ∧
  notificationsSent (metrics r.1) = notificationsSent (metrics st) ∧
  notificationsStored (metrics r.1) = notificationsStored (metrics st) + 1.
Proof.
  intros Hch Hs Hm. cbv zeta. unfold onClose.
  pose proof (unregister_channels s c st s) as Hch1.
  rewrite decide_True, Hch in Hch1 by done.
  assert ((JSSet.delete c [c]).2 = []) as Hd.
  { unfold JSSet.delete. cbn [snd]. rewrite filter_cons.
    by destruct (decide (c ≠ c)). }
  rewrite Hd in Hch1.
  destruct (unregister_frame s c st) as (_ & _ & Hw & _).
  destruct (unregister_metrics s c st) as (_ & _ & Hsent & Hsd & _).
  set (st1 := unregisterConnection s c st) in *. cbv zeta in *.
  split; [by apply unregister_no_empty_key|].
  rewrite (publish_accepted body clk st1 s msg Hs Hm). cbv zeta.
  cbn [fst snd]. split; [done|].
  set (n := mk_notification s msg clk).
  destruct (broadcast_spec s (live_event n)
              (addRecentNotification n (t_prune clk) st1))
    as (Hr & Hbw & _ & _ & _ & _ & _ & _ & Hbs & Hbsd & _).
  destruct (add_metrics n (t_prune clk) st1) as (_ & _ & Has & Hasd & _).
  cbv zeta in *.
  assert (writable (addRecentNotification n (t_prune clk) st1)
            (channels (addRecentNotification n (t_prune clk) st1) s) = [])
    as Hnone.
  { change (channels (addRecentNotification n (t_prune clk) st1) s)
      with (channels st1 s). by rewrite Hch1. }
  rewrite Hnone in Hr, Hbw. simpl in Hr, Hbw.
  rewrite Hbw, Hbs, Hr, Hbsd, Has, Hasd, app_nil_r.
  change (wire (addRecentNotification n (t_prune clk) st1)) with (wire st1).
  split; [done|]. split; lia.
Qed.

(** *** [POST /publish/batch] *)

(** The append and broadcast of one accepted entry. *)
Lemma publish_batch_step_accepted st ids p n :
  accepted_entry p = Some n →
  publish_batch_step (st, ids) p
  = ((broadcastToStudent (studentId n) (live_event n)
        (addRecentNotification n (t_prune p.2) st)).1,
     ids ++ [(id n, studentId n)]).
Proof.
  unfold accepted_entry, publish_batch_step. cbn [fst snd].
  destruct (truthy (body_studentId p.1)) as [s|]; [|done].
  destruct (truthy (body_message p.1)) as [msg|]; [|done].
  by intros [= <-].
Qed.

Lemma publish_batch_step_skipped st ids p :
  accepted_entry p = None → publish_batch_step (st, ids) p = (st, ids).
Proof.
  unfold accepted_entry, publish_batch_step. cbn [fst snd].
  destruct (truthy (body_studentId p.1)) as [s|]; [|done].
  by destruct (truthy (body_message p.1)) as [msg|].
Qed.

Lemma publish_batch_loop ps : ∀ st ids,
  foldl publish_batch_step (st, ids) ps
  = (foldl (λ st a,
        (broadcastToStudent (studentId a.1) (live_event a.1)
           (addRecentNotification a.1 a.2 st)).1) st (accepted_entries ps),
     ids ++ ((λ a, (id a.1, studentId a.1)) <$> accepted_entries ps)).
Proof.
  induction ps as [|p ps IH]; intros st ids.
  - simpl. by rewrite app_nil_r.
  - cbn [foldl]. rewrite accepted_entries_cons.
    destruct (accepted_entry p) as [n|] eqn:Hp.
    + rewrite (publish_batch_step_accepted st ids p n Hp), IH.
      simpl. by rewrite <- app_assoc.
    + rewrite (publish_batch_step_skipped st ids p Hp), IH. done.
Qed.

(** The appends and broadcasts of the accepted entries: what they write and
    count. *)
Lemma accepted_loop st acc : ∀ st0,
  connections st0 = connections st → failing st0 = failing st →
  let st' := foldl (λ st a,
               (broadcastToStudent (studentId a.1) (live_event a.1)
                  (addRecentNotification a.1 a.2 st)).1) st0 acc in
  connections st' = connections st ∧ failing st' = failing st ∧
  wire st'
  = wire st0 ++ (acc ≫= λ a,
       broadcast_frames (live_event a.1)
         (writable st (channels st (studentId a.1)))) ∧
  notificationsStored (metrics st')
  = notificationsStored (metrics st0) + Z.of_nat (length acc).
Proof.
  induction acc as [|a acc IH]; intros st0 Hc Hf; cbv zeta.
  - simpl. rewrite app_nil_r. repeat split; try done. lia.
  - cbn [foldl].
    destruct (broadcast_spec (studentId a.1) (live_event a.1)
                (addRecentNotification a.1 a.2 st0))
      as (_ & Hw & Hc1 & _ & Hf1 & _ & _ & _ & _ & Hsd & _).
    destruct (add_metrics a.1 a.2 st0) as (_ & _ & _ & Hasd & _).
    cbv zeta in *.
    set (st1 := (broadcastToStudent (studentId a.1) (live_event a.1)
                   (addRecentNotification a.1 a.2 st0)).1) in *.
    assert (connections st1 = connections st) as Hc'
      by (rewrite Hc1; exact Hc).
    assert (failing st1 = failing st) as Hf'
      by (rewrite Hf1; exact Hf).
    destruct (IH st1 Hc' Hf') as (Hc2 & Hf2 & Hw2 & Hsd2).
    split; [exact Hc2|]. split; [exact Hf2|]. split.
    + rewrite Hw2, Hw, bind_cons, <- app_assoc. f_equal. f_equal.
      unfold writable, channels.
      change (connections (addRecentNotification a.1 a.2 st0))
        with (connections st0).
      change (failing (addRecentNotification a.1 a.2 st0))
        with (failing st0).
      by rewrite Hc, Hf.
    + rewrite Hsd2, Hsd, Hasd. cbn [length]. lia.
Qed.


(** X2 — A batch delivers each notification to its own recipient only.  The
    frames a batch writes are, entry by entry in the order of the array, the
    [live] event of each accepted entry on the channels registered for the
    recipient of that entry whose write does not throw; so a frame written on
    a channel carries a notification addressed to a recipient that holds the
    channel. *)
Theorem publish_batch_isolation l st :
  let r := publish_batch (Some l) st in
  let written :=
    accepted_entries l ≫= λ a,
      broadcast_frames (live_event a.1)
        (writable st (channels st (studentId a.1))) in
  wire r.1 = wire st ++ written ∧
  connections r.1 = connections st ∧
  ∀ c f, (c, f) ∈ written →
    ∃ n, n ∈ (accepted_entries l).*1 ∧ f = data (live_event n) ∧
         c ∈ channels st (studentId n) ∧ c ∉ failing st.
Proof.
  cbv zeta.
  assert (wire (publish_batch (Some l) st).1
          = wire st ++ (accepted_entries l ≫= λ a,
              broadcast_frames (live_event a.1)
                (writable st (channels st (studentId a.1)))) ∧
          connections (publish_batch (Some l) st).1 = connections st)
    as [Hw Hc].
  { destruct l as [|p ps].
    - cbn [publish_batch fst]. simpl. by rewrite app_nil_r.
    - unfold publish_batch. rewrite publish_batch_loop. cbn [fst].
      by destruct (accepted_loop st (accepted_entries (p :: ps)) st eq_refl
                     eq_refl) as (? & _ & ? & _). }
  split; [exact Hw|]. split; [exact Hc|].
  intros c f Hin. apply list_elem_of_bind in Hin as (a & Hin & Ha).
  unfold broadcast_frames in Hin.
  apply list_elem_of_fmap in Hin as (c' & [= -> ->] & Hc').
  unfold writable in Hc'. apply list_elem_of_filter in Hc' as [Hnf Hc'].
  exists a.1. split; [|done].
  apply list_elem_of_fmap. by exists a.
Qed.

(** *** Fan-out in total and at a limit below one *)

Lemma reachable_bounded st :
  1 ≤ MAX_CONNECTIONS_PER_STUDENT → reachable st → registry_bounded st.
Proof.
  intros Hmax. induction 1 as [|o st _ IH _].
  - apply init_bounded. lia.
  - by apply run_op_bounded.
Qed.

Lemma total_size_le_size {A} (m : gmap string (list A)) (M : Z) :
  0 ≤ M → (∀ s lst, m !! s = Some lst → Z.of_nat (length lst) ≤ M) →
  total_size m ≤ M * Z.of_nat (size m).
Proof.
  intros HM. induction m as [|i x m Hi IH] using map_ind; intros Hle.
  - rewrite map_size_empty. pose proof (@total_size_empty A). lia.
  - rewrite map_size_insert_None, total_size_insert_None by done.
    assert (Z.of_nat (length x) ≤ M) as Hx
      by (apply (Hle i); apply lookup_insert_eq).
    assert (total_size m ≤ M * Z.of_nat (size m)) as Hm.
    { apply IH. intros s lst Hs. apply (Hle s).
      destruct (decide (i = s)) as [->|Hn]; [congruence|].
      by rewrite lookup_insert_ne. }
    nia.
Qed.

(** X16 — The fan-out is bounded in total: with a limit of at least one, in
    a state reached by operations that register a reply once, the number of
    active connections is at most the limit times the number of recipients
    that [GET /metrics] reports as connected. *)
Theorem active_bounded_by_recipients st :
  1 ≤ MAX_CONNECTIONS_PER_STUDENT → reachable st →
  connectionsActive (metrics st)
  ≤ MAX_CONNECTIONS_PER_STUDENT * studentsWithConnections (get_metrics st).
Proof.
  intros Hmax Hreach. cbn [get_metrics studentsWithConnections].
  destruct (reachable_consistent st Hreach) as [_ ->].
  apply total_size_le_size; [lia|].
  intros s lst Hs. destruct (reachable_bounded st Hmax Hreach s) as [_ Hsz].
  unfold channels, JSSet.size in Hsz. by rewrite Hs in Hsz.
Qed.

(** X17 — A limit below one is not enforced.  With
    [MAX_CONNECTIONS_PER_STUDENT <= 0] a registration finds nothing to evict
    for a recipient without channels and evicts exactly one channel
    otherwise, so the recipient always ends up holding the new reply: more
    channels than the limit. *)
Theorem limit_below_one s c st :
  MAX_CONNECTIONS_PER_STUDENT ≤ 0 →
  NoDup (channels st s) → c ∉ channels st s →
  let st' := registerConnection s c st in
  (channels st s = [] → channels st' s = [c] ∧ ended st' = ended st) ∧
  (∀ o rest, channels st s = o :: rest →
     channels st' s = rest ++ [c] ∧ ended st' = ended st ++ [o]) ∧
  MAX_CONNECTIONS_PER_STUDENT < JSSet.size (channels st' s).
Proof.
  intros Hmax Hnd Hc. cbv zeta.
  destruct (register_frame s c st) as (_ & _ & _ & He). cbv zeta in He.
  rewrite register_channels, decide_True by done.
  assert (∀ o rest, channels st s = o :: rest →
            evicted_from (channels st s) = Some o ∧
            after_eviction (channels st s) = rest) as Hfull.
  { intros o rest Hset. rewrite Hset in *.
    apply after_eviction_full; [done|]. unfold JSSet.size. lia. }
  assert (channels st s = [] →
            evicted_from (channels st s) = None ∧
            after_eviction (channels st s) = []) as Hempty.
  { intros Hset. rewrite Hset. unfold after_eviction, evicted_from.
    by rewrite bool_decide_true by (unfold JSSet.size; simpl; lia). }
  split; [|split].
  - intros Hset. destruct (Hempty Hset) as [Hev Hae].
    rewrite He, Hev, Hae, app_nil_r. split; [|done].
    by rewrite JSSet_add_new by apply not_elem_of_nil.
  - intros o rest Hset. destruct (Hfull o rest Hset) as [Hev Hae].
    rewrite He, Hev, Hae. split; [|done].
    apply JSSet_add_new. intros Hin. apply Hc. rewrite Hset.
    by apply elem_of_cons; right.
  - pose proof (JSSet_add_elem c (after_eviction (channels st s))) as Hin.
    unfold JSSet.size.
    destruct (JSSet.add c (after_eviction (channels st s)));
      [by apply elem_of_nil in Hin|]. simpl. lia.
Qed.

End Engine.

(** ** The documented configuration: scenarios, instances, counterexamples *)

Module Documented.

Abbreviation MAX := documented_MAX_CONNECTIONS_PER_STUDENT.
Abbreviation TTL := documented_NOTIFICATION_TTL_MS.

(** Recipient [r] has a healthy channel 1 and a channel 2 whose write
    throws: a broadcast reaches channel 1, reports one write, and keeps
    both channels registered. *)
Example failing_channel_scenario :
  let st := mkState {["r" := [1; 2]%nat]} ∅ metrics0 [2%nat] [] [] in
  let payload := mkEvent live "0-x" "x" 0 in
  let r := broadcastToStudent "r" payload st in
  wire r.1 = [(1%nat, data payload)] ∧ r.2 = 1 ∧
  channels r.1 "r" = [1; 2]%nat ∧ notificationsSent (metrics r.1) = 1.
Proof. vm_compute. done. Qed.

(** C6, instance: a broadcast to a recipient without channels. *)
Lemma broadcast_isolation_witness :
  channels init_state "r" = [] ∧
  broadcastToStudent "r" (mkEvent live "0-x" "x" 0) init_state
  = (init_state, 0).
Proof.
  assert (channels init_state "r" = []) as Hnil by (by vm_compute).
  split; [exact Hnil|].
  destruct (broadcast_isolation "r" (mkEvent live "0-x" "x" 0) init_state)
    as (_ & _ & _ & _ & _ & H).
  exact (H Hnil).
Defined.

(** Publish to [s2] while it is disconnected, then subscribe: the first
    frame after the opening comment is the [missed] one. *)
Example missed_replay_scenario :
  let st1 := (publish TTL (Some body_s2) (publish_at 0 "r") init_state).1 in
  let r := sse MAX TTL (Some "s2") 1%nat (sse_at 10) st1 in
  wire r.1 = [(1%nat, connected 10);
              (1%nat, data (mkEvent missed "0-r" "Grade A on Math" 0))].
Proof. vm_compute. done. Qed.

(** Four registrations with a limit of three: the first is evicted. *)
Example eviction_scenario :
  let st := register_all MAX "s1" [1; 2; 3; 4]%nat init_state in
  channels st "s1" = [2; 3; 4]%nat ∧ ended st = [1%nat] ∧
  connectionsTotal (metrics st) = 4 ∧ connectionsActive (metrics st) = 3.
Proof. vm_compute. done. Qed.

(** One publish and one subscribe can be merged in 15 ways. *)
Example interleavings_count :
  length (interleavings (publish_steps "s2" "Grade A on Math" (publish_at 0 "r"))
                        (sse_steps "s2" 1%nat (sse_at 10))) = 15%nat.
Proof. reflexivity. Qed.

(** C1, counterexample: a notification published at time 0 is pruned by
    the pass that a subscribe at time 86400001 runs before its replay; the
    reply gets the opening comment and nothing else. *)
Lemma at_least_once_counterexample :
  let st1 := (publish TTL (Some body_s2) (publish_at 0 "r") init_state).1 in
  let r := sse MAX TTL (Some "s2") 1%nat (sse_at 86400001) st1 in
  history st1 "s2" = [mkNotification "0-r" "s2" "Grade A on Math" 0] ∧
  r.2 = stream_open ∧ wire r.1 = [(1%nat, connected 86400001)] ∧
  ¬ at_least_once MAX TTL.
Proof.
  cbv zeta. split; [by vm_compute|]. split; [by vm_compute|].
  split; [by vm_compute|].
  intros H.
  destruct (H init_state "s2" "Grade A on Math" (publish_at 0 "r") 1%nat
              (sse_at 86400001)
              (publish_steps "s2" "Grade A on Math" (publish_at 0 "r")
               ++ sse_steps "s2" 1%nat (sse_at 86400001)))
    as (st' & Hrun & Hlt).
  - apply not_elem_of_nil.
  - apply interleavings_sound, sequential_orders.
  - vm_compute in Hrun. injection Hrun as <-.
    vm_compute in Hlt. lia.
Qed.

(** C1, instance: published at time 0 and subscribed at time 10. *)
Lemma at_least_once_witness :
  let n := mk_notification "s2" "Grade A on Math" (publish_at 0 "r") in
  let st1 := (publish TTL (Some body_s2) (publish_at 0 "r") init_state).1 in
  (received 1%nat n (wire init_state)
   < received 1%nat n (wire (sse MAX TTL (Some "s2") 1%nat (sse_at 10) st1).1))%nat.
Proof.
  cbv zeta.
  destruct (at_least_once_within_retention MAX TTL init_state "s2"
              "Grade A on Math" (publish_at 0 "r") 1%nat (sse_at 10))
    as [_ H].
  - apply not_elem_of_nil.
  - vm_compute. discriminate.
  - vm_compute. discriminate.
  - destruct H as [H _]; [done|done|]. exact H.
Defined.

(** C2, instance: five registrations from the initial state. *)
Lemma bounded_fan_out_witness :
  1 ≤ MAX ∧
  let st := register_all MAX "s1" [1; 2; 3; 4; 5]%nat init_state in
  channels st "s1" = [3; 4; 5]%nat ∧ ended st = [1; 2]%nat ∧
  JSSet.size (channels st "s1") = MAX.
Proof.
  assert (1 ≤ MAX) as Hmax by (vm_compute; discriminate).
  split; [exact Hmax|]. cbv zeta.
  destruct (bounded_fan_out MAX TTL Hmax) as (_ & H & _).
  destruct (H "s1" [1; 2; 3; 4; 5]%nat init_state) as (Hch & Hen & Hsz).
  - apply (bool_decide_unpack _). by vm_compute.
  - vm_compute. discriminate.
  - split; [exact Hch|]. split; [exact Hen|].
    apply Hsz. vm_compute. discriminate.
Defined.

(** C3, counterexample: a publish to [s1] at time 86400001 removes the
    notification stored for [s2] at time 0 and counts it as evicted; so
    does a subscribe of [s1] at that time. *)
Lemma pruning_counterexample :
  let st1 := (publish TTL (Some body_s2) (publish_at 0 "r") init_state).1 in
  let st2 := (publish TTL (Some body_s1) (publish_at 86400001 "q") st1).1 in
  let st3 := (sse MAX TTL (Some "s1") 1%nat (sse_at 86400001) st1).1 in
  history st1 "s2" = [mkNotification "0-r" "s2" "Grade A on Math" 0] ∧
  notificationsEvicted (metrics st1) = 0 ∧
  history st2 "s2" = [] ∧ notificationsEvicted (metrics st2) = 1 ∧
  history st3 "s2" = [] ∧ notificationsEvicted (metrics st3) = 1 ∧
  ¬ pruning_only_time_driven MAX TTL.
Proof.
  cbv zeta. repeat (split; [by vm_compute|]).
  intros H.
  destruct (H (op_publish (Some body_s1) (publish_at 86400001 "q"))
              (publish TTL (Some body_s2) (publish_at 0 "r") init_state).1 I)
    as [He _].
  vm_compute in He. discriminate.
Qed.

(** C3, instance: the publish of the counterexample, as the amended claim
    describes it. *)
Lemma pruning_call_sites_witness :
  let st1 := (publish TTL (Some body_s2) (publish_at 0 "r") init_state).1 in
  let st2 := (publish TTL (Some body_s1) (publish_at 86400001 "q") st1).1 in
  history st2 "s2" = filter (retained TTL 86400001) (history st1 "s2") ∧
  notificationsEvicted (metrics st2)
  = notificationsEvicted (metrics st1)
    + (total_size (recentNotifications st1) + 1
       - total_size (recentNotifications st2)).
Proof.
  cbv zeta.
  destruct (pruning_call_sites MAX TTL) as (_ & H & _).
  destruct (H body_s1 (publish_at 86400001 "q")
              (publish TTL (Some body_s2) (publish_at 0 "r") init_state).1
              "s1" "New grade posted") as [Hh He]; [done|done|].
  split; [|exact He].
  rewrite (Hh "s2"). by rewrite app_nil_r.
Defined.

(** C4, counterexample: an unregistration lowers [connectionsActive]. *)
Lemma active_counter_counterexample :
  let st1 := registerConnection MAX "s1" 1%nat init_state in
  let st2 := unregisterConnection "s1" 1%nat st1 in
  connectionsActive (metrics st1) = 1 ∧
  connectionsActive (metrics st2) = 0 ∧
  ¬ all_counters_monotone MAX TTL.
Proof.
  cbv zeta. repeat (split; [by vm_compute|]).
  intros H.
  destruct (H (op_unregister "s1" 1%nat)
              (registerConnection MAX "s1" 1%nat init_state)) as [_ Ha].
  vm_compute in Ha. by apply Ha.
Qed.

(** C7, instance: a channel registered once and closed twice. *)
Lemma unregister_idempotent_witness :
  let st := registerConnection MAX "s1" 1%nat init_state in
  let st' := unregisterConnection "s1" 1%nat st in
  active_consistent st ∧
  connectionsActive (metrics st') = connectionsActive (metrics st) - 1 ∧
  unregisterConnection "s1" 1%nat st' = st' ∧
  connections st' !! "s1" = None.
Proof.
  cbv zeta.
  assert (active_consistent (registerConnection MAX "s1" 1%nat init_state))
    as Hcons.
  { apply register_consistent; [apply init_consistent|].
    apply not_elem_of_nil. }
  split; [exact Hcons|].
  destruct (unregister_idempotent "s1" 1%nat _ Hcons)
    as (_ & _ & Hdec & _ & Htwice & _ & Hkey & _).
  split; [|split; [exact Htwice|]].
  - apply Hdec. apply (bool_decide_unpack _). by vm_compute.
  - apply Hkey. by vm_compute.
Defined.



(** C10, instance: the state after four registrations for one recipient. *)
Lemma active_count_consistent_witness :
  let st := run_ops MAX TTL
              [op_register "s1" 1%nat; op_register "s1" 2%nat;
               op_register "s1" 3%nat; op_register "s1" 4%nat]
              init_state in
  reachable MAX TTL st ∧
  connectionsActive (metrics st) = total_size (connections st) ∧
  0 ≤ connectionsActive (metrics st).
Proof.
  cbv zeta.
  assert (reachable MAX TTL
            (run_ops MAX TTL
               [op_register "s1" 1%nat; op_register "s1" 2%nat;
                op_register "s1" 3%nat; op_register "s1" 4%nat]
               init_state)) as Hreach.
  { unfold run_ops. cbn [foldl].
    repeat (apply reachable_step;
            [|apply (bool_decide_unpack _); by vm_compute]).
    apply reachable_init. }
  split; [exact Hreach|].
  destruct (active_count_consistent MAX TTL _ Hreach) as (Ha & Hnn & _).
  by split.
Defined.

End Documented.

(** ** Instances of the further properties *)

Module Instances.

Abbreviation MAX := documented_MAX_CONNECTIONS_PER_STUDENT.
Abbreviation TTL := documented_NOTIFICATION_TTL_MS.


(** X2, instance: recipients [s1] and [s2] with one channel each. *)
Lemma publish_batch_isolation_witness :
  let st := registerConnection MAX "s2" 2%nat
              (registerConnection MAX "s1" 1%nat init_state) in
  let l := [(body_s1, publish_at 7 "a"); (body_s2, publish_at 7 "b")] in
  ∃ n, n ∈ (accepted_entries l).*1 ∧
       data (mkEvent live "7-a" "New grade posted" 7) = data (live_event n) ∧
       1%nat ∈ channels st (studentId n) ∧ 1%nat ∉ failing st.
Proof.
  cbv zeta.
  destruct (publish_batch_isolation TTL
              [(body_s1, publish_at 7 "a"); (body_s2, publish_at 7 "b")]
              (registerConnection MAX "s2" 2%nat
                 (registerConnection MAX "s1" 1%nat init_state)))
    as (_ & _ & H).
  apply (H 1%nat (data (mkEvent live "7-a" "New grade posted" 7))).
  apply (bool_decide_unpack _). by vm_compute.
Defined.

(** X3, instance: two recipients with one channel each. *)
Lemma students_with_connections_witness :
  let st := run_ops MAX TTL
              [op_register "s1" 1%nat; op_register "s2" 2%nat] init_state in
  reachable MAX TTL st ∧
  0 ≤ studentsWithConnections (get_metrics st)
    ≤ connectionsActive (metrics st).
Proof.
  cbv zeta.
  assert (reachable MAX TTL
            (run_ops MAX TTL
               [op_register "s1" 1%nat; op_register "s2" 2%nat] init_state))
    as Hreach.
  { unfold run_ops. cbn [foldl].
    repeat (apply reachable_step;
            [|apply (bool_decide_unpack _); by vm_compute]).
    apply reachable_init. }
  split; [exact Hreach|].
  by destruct (students_with_connections MAX TTL _ Hreach) as (_ & _ & _ & ?).
Defined.


(** X8, instance: the fourth registration for a recipient evicts reply 1. *)
Lemma evicted_close_noop_witness :
  let st := register_all MAX "s1" [1; 2; 3]%nat init_state in
  let st' := registerConnection MAX "s1" 4%nat st in
  evicted_from MAX (channels st "s1") = Some 1%nat ∧
  onClose "s1" 1%nat st' = st'.
Proof.
  cbv zeta.
  assert (evicted_from MAX
            (channels (register_all MAX "s1" [1; 2; 3]%nat init_state) "s1")
          = Some 1%nat) as Hev by (by vm_compute).
  split; [exact Hev|].
  destruct (evicted_close_noop MAX "s1" 4%nat 1%nat
              (register_all MAX "s1" [1; 2; 3]%nat init_state))
    as (_ & _ & _ & H); [| |exact Hev|exact H].
  - apply (bool_decide_unpack _). by vm_compute.
  - apply (bool_decide_unpack _). by vm_compute.
Defined.

(** X9, instance: the first connection of a recipient, then its close. *)
Lemma register_unregister_roundtrip_witness :
  let st' := onClose "s1" 1%nat (registerConnection MAX "s1" 1%nat init_state) in
  connections st' = connections init_state ∧
  connectionsActive (metrics st') = 0 ∧ connectionsTotal (metrics st') = 1.
Proof.
  cbv zeta.
  destruct (register_unregister_roundtrip MAX "s1" 1%nat init_state)
    as (Hc & Ha & Ht & _).
  - vm_compute. discriminate.
  - apply not_elem_of_nil.
  - vm_compute. reflexivity.
  - vm_compute. discriminate.
  - split; [exact Hc|]. split; [rewrite Ha|rewrite Ht]; by vm_compute.
Defined.

(** X10, instance: a cleanup tick ten milliseconds after a publish. *)
Lemma retained_entries_survive_witness :
  let st := (publish TTL (Some body_s2) (publish_at 0 "r") init_state).1 in
  let n := mkNotification "0-r" "s2" "Grade A on Math" 0 in
  n ∈ history st "s2" ∧
  n ∈ history (run_op MAX TTL (op_prune 10) st) "s2".
Proof.
  cbv zeta.
  assert (mkNotification "0-r" "s2" "Grade A on Math" 0
          ∈ history (publish TTL (Some body_s2) (publish_at 0 "r")
                       init_state).1 "s2") as Hin.
  { apply (bool_decide_unpack _). by vm_compute. }
  split; [exact Hin|].
  apply (retained_entries_survive MAX TTL (op_prune 10)); [|exact Hin].
  apply Forall_cons. split; [|apply Forall_nil_2].
  vm_compute. discriminate.
Defined.

(** X11, instance: a subscribe on a reply whose write throws. *)
Lemma sse_outcomes_witness :
  let st := mkState ∅ ∅ metrics0 [1%nat] [] [] in
  let r := sse MAX TTL (Some "s1") 1%nat (sse_at 10) st in
  1%nat ∈ channels r.1 "s1" ∧ wire r.1 = [] ∧
  connectionsTotal (metrics r.1) = 1.
Proof.
  cbv zeta.
  destruct (sse_outcomes MAX TTL (Some "s1") 1%nat (sse_at 10)
              (mkState ∅ ∅ metrics0 [1%nat] [] [])) as (_ & _ & _ & _ & H).
  destruct (H "s1") as (_ & Hin & Hw & _ & Ht).
  - by vm_compute.
  - apply (bool_decide_unpack _). by vm_compute.
  - split; [exact Hin|]. split; [exact Hw|exact Ht].
Defined.

(** X12, instance: one stream opened and closed, then a publish. *)
Lemma publish_after_last_close_witness :
  let st := registerConnection MAX "s1" 1%nat init_state in
  let r := publish TTL (Some body_s1) (publish_at 7 "k3")
             (onClose "s1" 1%nat st) in
  r.2 = reply202 "7-k3" ∧ wire r.1 = [] ∧
  notificationsSent (metrics r.1) = 0 ∧
  notificationsStored (metrics r.1) = 1.
Proof.
  cbv zeta.
  destruct (publish_after_last_close TTL "s1" 1%nat body_s1
              (publish_at 7 "k3")
              (registerConnection MAX "s1" 1%nat init_state)
              "New grade posted")
    as (_ & Hr & Hw & Hs & Hsd); [by vm_compute..|].
  split; [rewrite Hr; by vm_compute|]. split; [exact Hw|].
  split; [exact Hs|exact Hsd].
Defined.

(** X14, instance: two passes, five milliseconds and a day after a publish. *)
Lemma prune_later_absorbs_witness :
  let st := (publish TTL (Some body_s2) (publish_at 0 "r") init_state).1 in
  pruneOldNotifications TTL 86400001 (pruneOldNotifications TTL 5 st)
  = pruneOldNotifications TTL 86400001 st.
Proof.
  cbv zeta.
  destruct (prune_later_absorbs TTL 5 86400001
              (publish TTL (Some body_s2) (publish_at 0 "r") init_state).1)
    as [H _]; [vm_compute; discriminate|exact H].
Defined.

(** X15, instance: a close for a recipient that never connected. *)
Lemma unregister_unknown_noop_witness :
  unregisterConnection "s1" 1%nat init_state = init_state.
Proof.
  apply (unregister_unknown_noop MAX TTL [] "s1" 1%nat).
  apply not_elem_of_nil.
Defined.

(** X16, instance: four registrations for one recipient. *)
Lemma active_bounded_by_recipients_witness :
  let st := run_ops MAX TTL
              [op_register "s1" 1%nat; op_register "s1" 2%nat;
               op_register "s1" 3%nat; op_register "s1" 4%nat]
              init_state in
  connectionsActive (metrics st)
  ≤ MAX * studentsWithConnections (get_metrics st).
Proof.
  cbv zeta. apply (active_bounded_by_recipients MAX TTL).
  - vm_compute. discriminate.
  - unfold run_ops. cbn [foldl].
    repeat (apply reachable_step;
            [|apply (bool_decide_unpack _); by vm_compute]).
    apply reachable_init.
Defined.

(** X17, instance: a limit of zero and a first registration. *)
Lemma limit_below_one_witness :
  0 < JSSet.size (channels (registerConnection 0 "s1" 1%nat init_state) "s1").
Proof.
  destruct (limit_below_one 0 "s1" 1%nat init_state) as (_ & _ & H).
  - done.
  - apply NoDup_nil_2.
  - apply not_elem_of_nil.
  - exact H.
Defined.

End Instances.
